(** * GomokuAI: the game state, the line evaluator and the move search

    A shallow embedding of [project_game.py] (class [GomokuGame] and the
    line evaluator) and of [ai.py] (class [AIPlayer]).  Python integers are
    [Z], Python lists are [list], dictionaries are a [gmap] (lookup by key)
    or an association list (iteration in insertion order), and a Python
    exception is the [Raise] branch of [result]. *)

From stdpp Require Import base option list strings gmap.
From Stdlib Require Import ZArith Lia.

Local Open Scope string_scope.
Local Open Scope Z_scope.
Local Open Scope list_scope.

(** ** Python outcomes *)

Inductive exn : Set :=
  | IndexError | TypeError | AttributeError | KeyError | ValueError | AssertionError.

Inductive result (A : Type) : Type :=
  | Ok (a : A)
  | Raise (e : exn).
Arguments Ok {A} a.
Arguments Raise {A} e.

#[global] Instance result_ret : MRet result := @Ok.
#[global] Instance result_bind : MBind result := fun A B f m =>
  match m with
  | Ok a => f a
  | Raise e => Raise e
  end.
#[global] Instance result_fmap : FMap result := fun A B f m =>
  match m with
  | Ok a => Ok (f a)
  | Raise e => Raise e
  end.

(** [for x in l: acc = body acc x], stopping at the first exception. *)
Fixpoint foldM {A B : Type} (body : B -> A -> result B) (acc : B) (l : list A)
  : result B :=
  match l with
  | [] => Ok acc
  | x :: l' => acc' ← body acc x; foldM body acc' l'
  end.

(** [[f x for x in l]]. *)
Fixpoint mapM_r {A B : Type} (f : A -> result B) (l : list A) : result (list B) :=
  match l with
  | [] => Ok []
  | x :: l' => y ← f x; ys ← mapM_r f l'; Ok (y :: ys)
  end.

(** [[x for x in l if p x]] with a test that may raise. *)
Fixpoint filterM_r {A : Type} (p : A -> result bool) (l : list A) : result (list A) :=
  match l with
  | [] => Ok []
  | x :: l' => b ← p x; xs ← filterM_r p l'; Ok (if b : bool then x :: xs else xs)
  end.

(** ** Python list primitives *)

(** [l[i]]: a negative index counts from the end, anything outside
    [-len(l) <= i < len(l)] raises [IndexError]. *)
Definition py_index {A : Type} (l : list A) (i : Z) : option nat :=
  let n := Z.of_nat (length l) in
  if bool_decide (0 <= i < n) then Some (Z.to_nat i)
  else if bool_decide (- n <= i < 0) then Some (Z.to_nat (n + i))
  else None.

Definition py_getitem {A : Type} (l : list A) (i : Z) : result A :=
  match py_index l i with
  | Some k => match l !! k with Some x => Ok x | None => Raise IndexError end
  | None => Raise IndexError
  end.

(** [l[i] = v]. *)
Definition py_setitem {A : Type} (l : list A) (i : Z) (v : A) : result (list A) :=
  match py_index l i with
  | Some k => Ok (<[k:=v]> l)
  | None => Raise IndexError
  end.

(** [l.remove(x)]: the first occurrence goes.  Python raises [ValueError]
    when there is none; the only call site tests [x in l] first. *)
Fixpoint py_remove {A : Type} `{EqDecision A} (x : A) (l : list A) : list A :=
  match l with
  | [] => []
  | y :: l' => if decide (x = y) then l' else y :: py_remove x l'
  end.

(** [copy.deepcopy(x)]: in a model of values, a deep copy is the value. *)
Definition deepcopy {A : Type} (x : A) : A := x.

(** [enumerate(l)]. *)
Definition enumerate {A : Type} (l : list A) : list (Z * A) :=
  imap (fun i x => (Z.of_nat i, x)) l.

(** [range(a, b)]. *)
Definition range (a b : Z) : list Z := seqZ a (b - a).

(** ** Constants of [project_game.py] *)

Definition _MAX_MOVES : Z := 15 * 15.

(** Each axis is a pair of opposite [(x_direction, y_direction)] steps. *)
Definition _DIRECTIONS : list (list (Z * Z)) :=
  [ [(-1, 0); (1, 0)]; [(0, -1); (0, 1)]; [(-1, 1); (1, -1)]; [(-1, -1); (1, 1)] ].

(** The pattern dictionary, in insertion order (the order [for key in pattern]
    visits it). *)
Definition _CHESS_PATTERN_BLACK : list (string * list Z) :=
  [ ("Connect_Five", [2; 2; 2; 2; 2]);
    ("STOP_FOUR", [1; 1; 1; 1; 2]);
    ("STOP_THREE", [0; 1; 1; 1; 2]);
    ("STOP_THREE_2", [2; 1; 1; 1; 2]);
    ("Open_Four", [0; 2; 2; 2; 2; 0]);
    ("Dead_Four", [2; 2; 2; 2]);
    ("Blocked_Four_4", [2; 1; 1; 1; 1; 2]);
    ("Blocked_Four_1", [0; 2; 2; 2; 2; 1]);
    ("Blocked_Four_2", [2; 2; 2; 0; 2]);
    ("Blocked_Four_3", [2; 2; 0; 2; 2]);
    ("Open_Three_1", [0; 2; 2; 2; 0]);
    ("Open_Three_2", [2; 0; 2; 2]);
    ("Pattern_Three_1", [0; 0; 2; 2; 2; 1]);
    ("Pattern_Three_2", [0; 2; 0; 2; 2; 1]);
    ("Pattern_Three_3", [0; 2; 2; 0; 2; 0]);
    ("Pattern_Three_4", [2; 0; 0; 2; 2]);
    ("Pattern_Three_5", [2; 0; 2; 0; 2]);
    ("Pattern_Three_6", [1; 0; 2; 2; 2; 0; 1]);
    ("Pattern_Two_1", [0; 0; 2; 2; 0; 0]);
    ("Pattern_Two_2", [0; 2; 0; 2; 0]);
    ("Pattern_Two_3", [2; 0; 0; 2]);
    ("Lian_4", [1; 1; 2; 1]);
    ("Live_3_kong_1", [1; 0; 2; 2; 2; 2]);
    ("black_win2", [1; 2; 2; 2; 2; 2]);
    ("black_win", [1; 2; 2; 2; 2; 2; 1]) ].

Definition _CHESS_PATTERN_SCORE : gmap string Z :=
  list_to_map
  [ ("Connect_Five", 99999990);
    ("black_win", 99999980);
    ("black_win2", 99999970);
    ("Blocked_Four_4", 88888880);
    ("STOP_THREE_2", 77777770);
    ("Lian_4", 77777780);
    ("Open_Four", 80000000);
    ("STOP_FOUR", 10000000);
    ("STOP_THREE", 77777780);
    ("Live_3_kong_1", 71000);
    ("Blocked_Four_1", 60000);
    ("Blocked_Four_2", 55000);
    ("Blocked_Four_3", 55000);
    ("Dead_Four", 20000);
    ("Open_Three_1", 50000);
    ("Open_Three_2", 30000);
    ("Pattern_Three_1", 10000);
    ("Pattern_Three_2", 8000);
    ("Pattern_Three_3", 8000);
    ("Pattern_Three_4", 9000);
    ("Pattern_Three_5", 6000);
    ("Pattern_Three_6", 8000);
    ("Pattern_Two_1", 2000);
    ("Pattern_Two_2", 1500);
    ("Pattern_Two_3", 1000) ].

(** ** The line evaluator *)

(** [_check_contain(a, b)]: does some slice [b[i:i+n]], [0 <= i <= len(b)-n],
    equal [a]?  The range is empty when [b] is shorter than [a]. *)
Definition _check_contain (a b : list Z) : bool :=
  let n := length a in
  existsb (fun i => bool_decide (a = take n (drop (Z.to_nat i) b)))
          (range 0 (Z.of_nat (length b) - Z.of_nat n + 1)).

(** [_evaluate_line(line)]. *)
Definition _evaluate_line (line : list Z) : result Z :=
  foldM (fun score '(key, a_1) =>
           let a_2 := reverse a_1 in
           let b := line in
           if _check_contain a_1 b || _check_contain a_2 b
           then match _CHESS_PATTERN_SCORE !! key with
                | Some s => Ok (score + s)
                | None => Raise KeyError
                end
           else Ok score)
        0 _CHESS_PATTERN_BLACK.

(** ** The game state *)

Definition move : Set := (Z * Z)%type.

Record GomokuGame : Type := mkGame {
  _board : list (list Z);
  _valid_moves : list move;
  _is_white_active : bool;
  _move_count : Z;
  _moves_so_far : list move;
  last_move : option move;
  _width : Z;
  _height : Z
}.

(** What [make_move] writes to the console. *)
Inductive output : Set :=
  | Print_not_valid (m : move).

(** [GomokuGame.__init__].  [if board:] is false for [None] and for the
    empty list; the valid moves, the history and the last move never depend
    on the arguments. *)
Definition __init__ (board : option (list (list Z))) (white_active : bool)
    (move_count width height : Z) : GomokuGame :=
  let lst := (fun _ => (fun _ => 0) <$> range 0 15) <$> range 0 15 in
  {| _board := match board with
               | Some (r :: rs) => r :: rs
               | _ => lst
               end;
     _is_white_active := white_active;
     _move_count := move_count;
     _valid_moves := x ← range 0 15; y ← range 0 15; [(y, x)];
     _moves_so_far := [];
     last_move := None;
     _width := width;
     _height := height |}.

(** [GomokuGame()] with every default. *)
Definition new_game : GomokuGame := __init__ None true 0 15 15.

(** [self._board[y][x]]. *)
Definition board_at (b : list (list Z)) (y x : Z) : result Z :=
  row ← py_getitem b y; py_getitem row x.

(** [b[y][x] = v]. *)
Definition board_set (b : list (list Z)) (y x v : Z) : result (list (list Z)) :=
  row ← py_getitem b y;
  row' ← py_setitem row x v;
  py_setitem b y row'.

(** [_board_after_move]: writes the active colour's stone and returns the
    board (the same list object that [self._board] names). *)
Definition _board_after_move (self : GomokuGame) (move : move)
  : result (list (list Z)) :=
  if _is_white_active self
  then board_set (_board self) move.1 move.2 1
  else board_set (_board self) move.1 move.2 2.

(** [make_move]: the state after the call and what was printed.  The only
    statement that can raise is the first of the [else] branch, before any
    field is written. *)
Definition make_move (self : GomokuGame) (move : move)
  : result (GomokuGame * list output) :=
  if bool_decide (move ∉ _valid_moves self)
  then Ok (self, [Print_not_valid move])
  else
    b ← _board_after_move self move;
    Ok ({| _board := b;
           _is_white_active := negb (_is_white_active self);
           _move_count := _move_count self + 1;
           last_move := Some move;
           _moves_so_far := _moves_so_far self ++ [move];
           _valid_moves := py_remove move (_valid_moves self);
           _width := _width self;
           _height := _height self |}, []).

(** [copy_and_make_move]: [None] for a move that is not valid, else a new
    game built by the constructor from a deep copy of the board, the active
    colour and the move count, on which [make_move] is then called. *)
Definition copy_and_make_move (self : GomokuGame) (move : move)
  : result (option GomokuGame) :=
  if bool_decide (move ∉ _valid_moves self)
  then Ok None
  else
    let c := __init__ (Some (deepcopy (_board self))) (_is_white_active self)
                      (_move_count self) 15 15 in
    '(c, _) ← make_move c move;
    Ok (Some c).


(** ** Win detection *)

(** The loop of [_count_direction_5] over the remaining [steps]; each
    [break] returns the count reached so far. *)
Fixpoint count_steps (board : list (list Z))
    (y_coordinate x_coordinate x_direction y_direction want : Z)
    (steps : list Z) (count : Z) : result Z :=
  match steps with
  | [] => Ok count
  | step :: steps' =>
      if bool_decide (x_direction ≠ 0)
         && (bool_decide (x_coordinate + x_direction * step < 0)
             || bool_decide (x_coordinate + x_direction * step > 14))
      then Ok count
      else if bool_decide (y_direction ≠ 0)
              && (bool_decide (y_coordinate + y_direction * step < 0)
                  || bool_decide (y_coordinate + y_direction * step > 14))
      then Ok count
      else
        v ← board_at board (y_coordinate + y_direction * step)
                           (x_coordinate + x_direction * step);
        if bool_decide (v = want)
        then count_steps board y_coordinate x_coordinate x_direction y_direction
                         want steps' (count + 1)
        else Ok count
  end.

(** [_count_direction_5]: at most four steps, [range(1, 5)]. *)
Definition _count_direction_5 (self : GomokuGame)
    (y_coordinate x_coordinate x_direction y_direction : Z) (white_turn : bool)
  : result Z :=
  let want := if white_turn then 2 else 1 in
  count_steps (_board self) y_coordinate x_coordinate x_direction y_direction
              want (range 1 5) 0.

(** The inner loop of [_five_in_a_row] over the two steps of one axis:
    [true] when [return True] was reached.  The test [count == 5] follows
    every addition. *)
Fixpoint five_on_axis (self : GomokuGame) (y_coordinate x_coordinate : Z)
    (white_turn : bool) (direction : list (Z * Z)) (count : Z) : result bool :=
  match direction with
  | [] => Ok false
  | (x_direction, y_direction) :: direction' =>
      c ← _count_direction_5 self y_coordinate x_coordinate
                             x_direction y_direction white_turn;
      let count := count + c in
      if bool_decide (count = 5) then Ok true
      else five_on_axis self y_coordinate x_coordinate white_turn direction' count
  end.

(** [any(p x for x in l)] written as a loop with an early [return True]. *)
Fixpoint anyM {A : Type} (p : A -> result bool) (l : list A) : result bool :=
  match l with
  | [] => Ok false
  | x :: l' => b ← p x; if b : bool then Ok true else anyM p l'
  end.

(** [_five_in_a_row]. *)
Definition _five_in_a_row (self : GomokuGame) (y_coordinate x_coordinate : Z)
    (white_turn : bool) : result bool :=
  anyM (fun direction =>
          five_on_axis self y_coordinate x_coordinate white_turn direction 1)
       _DIRECTIONS.

(** [get_winner]: [None], or one of the strings ['Draw'], ['Black'],
    ['White'].  Subscripting a missing last move is a [TypeError]. *)
Definition get_winner (self : GomokuGame) : result (option string) :=
  if bool_decide (_move_count self = 0) then Ok None
  else
    match last_move self with
    | None => Raise TypeError
    | Some (y_coordinate, x_coordinate) =>
        if bool_decide (_move_count self >= _MAX_MOVES) then Ok (Some "Draw")
        else
          five ← _five_in_a_row self y_coordinate x_coordinate (_is_white_active self);
          if five : bool
          then Ok (Some (if _is_white_active self then "Black" else "White"))
          else Ok None
    end.

(** ** Evaluation *)

(** The inner function [getline] of [generate_line]; [None] for a direction
    other than 0..3. *)
Definition getline (center : move) (direction : Z) (board : list (list Z))
  : result (option (list Z)) :=
  if bool_decide (direction = 0) then
    Some <$> py_getitem board center.1
  else if bool_decide (direction = 1) then
    Some <$> mapM_r (fun lst => py_getitem lst center.2) board
  else if bool_decide (direction = 2) then
    x ← mapM_r (fun '(i, lst) =>
                  if bool_decide (center.2 + i - center.1 >= 0)
                     && bool_decide (center.2 + i - center.1 <= 14)
                  then py_getitem lst (center.2 + i - center.1)
                  else Ok (-1))
               (enumerate board);
    Ok (Some (filter (fun a => a ≠ -1) x))
  else if bool_decide (direction = 3) then
    x ← mapM_r (fun '(i, lst) =>
                  if bool_decide (center.1 - i + center.2 >= 0)
                     && bool_decide (center.1 - i + center.2 <= 14)
                  then py_getitem lst (center.1 - i + center.2)
                  else Ok (-1))
               (enumerate board);
    Ok (Some (filter (fun a => a ≠ -1) x))
  else Ok None.

(** [generate_line]: the line without the stone at [center] (on a deep copy
    of the board) and the line as it is. *)
Definition generate_line (self : GomokuGame) (center : option move) (direction : Z)
  : result (option (list Z) * option (list Z)) :=
  let oldboard := deepcopy (_board self) in
  match center with
  | None => Raise TypeError
  | Some center =>
      oldboard ← board_set oldboard center.1 center.2 0;
      old_line ← getline center direction oldboard;
      new_line ← getline center direction (_board self);
      Ok (old_line, new_line)
  end.

(** [_evaluate_line] on what [getline] returned: [len(None)] is a [TypeError]. *)
Definition evaluate_line_of (line : option (list Z)) : result Z :=
  match line with
  | Some l => _evaluate_line l
  | None => Raise TypeError
  end.

(** [evaluate_game]. *)
Definition evaluate_game (self : GomokuGame) : result Z :=
  let center := last_move self in
  foldM (fun score direction =>
           '(old_line, new_line) ← generate_line self center direction;
           new_score ← evaluate_line_of new_line;
           old_score ← evaluate_line_of old_line;
           Ok (score + (new_score - old_score)))
        0 [0; 1; 2; 3].

(** ** Candidate moves *)

(** [_check_neighbour]: some stone in the square of the given radius around
    [move] (the cell of [move] itself is inside the square). *)
Definition _check_neighbour (self : GomokuGame) (move : move) (radius : Z)
  : result bool :=
  let '(y_1, y_2) := (move.1 - radius, move.1 + radius) in
  let '(x_1, x_2) := (move.2 - radius, move.2 + radius) in
  anyM (fun y =>
          anyM (fun x =>
                  if bool_decide (0 <= y <= 14) && bool_decide (0 <= x <= 14)
                  then v ← board_at (_board self) y x; Ok (bool_decide (v ≠ 0))
                  else Ok false)
               (range x_1 (x_2 + 1)))
       (range y_1 (y_2 + 1)).

(** [valid_moves_with_neighbour]. *)
Definition valid_moves_with_neighbour (self : GomokuGame) (radius : Z)
  : result (list move) :=
  filterM_r (fun move => _check_neighbour self move radius) (_valid_moves self).

(** ** The player of [ai.py] *)

(** An [int] or one of [float('-inf')], [float('inf')]: the values that the
    bounds and the return value of the pruning search take. *)
Inductive num : Set :=
  | NegInf
  | Fin (z : Z)
  | PosInf.

Definition num_neg (a : num) : num :=
  match a with
  | NegInf => PosInf
  | Fin z => Fin (- z)
  | PosInf => NegInf
  end.

Definition num_gt (a b : num) : bool :=
  match a, b with
  | NegInf, _ => false
  | Fin _, NegInf => true
  | Fin x, Fin y => bool_decide (x > y)
  | Fin _, PosInf => false
  | PosInf, PosInf => false
  | PosInf, _ => true
  end.

Definition num_ge (a b : num) : bool :=
  match a, b with
  | _, NegInf => true
  | NegInf, _ => false
  | Fin x, Fin y => bool_decide (x >= y)
  | Fin _, PosInf => false
  | PosInf, _ => true
  end.

(** A [for] loop whose body may [break]: the body returns the new locals
    and whether it broke. *)
Fixpoint foldM_break {A B : Type} (body : B -> A -> result (B * bool))
    (acc : B) (l : list A) : result B :=
  match l with
  | [] => Ok acc
  | x :: l' =>
      '(acc', broke) ← body acc x;
      if broke : bool then Ok acc' else foldM_break body acc' l'
  end.

Module AIPlayer.

Record t : Type := mk {
  _game : GomokuGame;
  _next_move : option move;
  _depth : option Z
}.

Definition set_next_move (self : t) (m : option move) : t :=
  {| _game := _game self; _next_move := m; _depth := _depth self |}.

Definition set_depth (self : t) (d : option Z) : t :=
  {| _game := _game self; _next_move := _next_move self; _depth := d |}.

(** [AIPlayer.__init__], with [depth] defaulting to 4. *)
Definition __init__ (game : GomokuGame) (depth : option Z) : t :=
  {| _game := game; _next_move := None; _depth := depth |}.

(** A method call on what [copy_and_make_move] returned: reading
    [game.last_move] of [None] is an [AttributeError]. *)
Definition the_game (new_game : option GomokuGame) : result GomokuGame :=
  match new_game with
  | Some g => Ok g
  | None => Raise AttributeError
  end.

(** [make_move(self, game, d)]: the returned score and the player after the
    call.  The depth is a natural number: the recursion counts [d] down to
    the test [d == 0]. *)
Fixpoint make_move (self : t) (game : GomokuGame) (d : nat) : result (Z * t) :=
  let self := set_next_move self None in
  match last_move game with
  | None =>
      let next_move := Some (7, 7) in
      let self := set_next_move self next_move in
      Ok (100, self)
  | Some _ =>
      score ← evaluate_game game;
      match d with
      | O => score ← evaluate_game game; Ok (score, self)
      | S d' =>
          possible_moves ← valid_moves_with_neighbour game 1;
          if bool_decide (length possible_moves = 0%nat) then Ok (score, self)
          else
            '(self, score, next_move) ←
              foldM (fun '(self, score, next_move) move =>
                       new_game ← copy_and_make_move game move;
                       new_game ← the_game new_game;
                       '(x, self) ← make_move self new_game d';
                       if bool_decide (x >= score)
                       then Ok (self, x, Some move)
                       else Ok (self, score, next_move))
                    (self, 0, None) possible_moves;
            Ok (score, set_next_move self next_move)
      end
  end.

(** [make_move_and_prune(self, game, d, alpha, beta)]. *)
Fixpoint make_move_and_prune (self : t) (game : GomokuGame) (d : nat)
    (alpha beta : num) : result (num * t) :=
  let self := set_next_move self None in
  match last_move game with
  | None =>
      let next_move := Some (7, 7) in
      let self := set_next_move self next_move in
      Ok (Fin 100, self)
  | Some _ =>
      score ← evaluate_game game;
      match d with
      | O => score ← evaluate_game game; Ok (Fin score, self)
      | S d' =>
          possible_moves ← valid_moves_with_neighbour game 1;
          if bool_decide (length possible_moves = 0%nat) then Ok (Fin score, self)
          else
            '(self, alpha, next_move) ←
              foldM_break
                (fun '(self, alpha, next_move) move =>
                   new_game ← copy_and_make_move game move;
                   new_game ← the_game new_game;
                   '(r, self) ← make_move_and_prune self new_game d'
                                   (num_neg beta) (num_neg alpha);
                   let score := num_neg r in
                   if num_gt score alpha
                   then Ok ((self, score, Some move), num_ge score beta)
                   else Ok ((self, alpha, next_move), false))
                (self, alpha, None) possible_moves;
            if bool_decide (Some (Z.of_nat d) = _depth self)
            then match next_move with
                 | None => Raise AssertionError
                 | Some _ => Ok (alpha, set_next_move self next_move)
                 end
            else Ok (alpha, self)
      end
  end.

(** [activate_make_move(self, game, d)]: the pair that is returned and the
    player after the call. *)
Definition activate_make_move (self : t) (game : GomokuGame) (d : nat)
  : result ((Z * option move) * t) :=
  let self := set_depth self (Some (Z.of_nat d)) in
  let self := set_next_move self None in
  '(score, self) ← make_move self game d;
  Ok ((score, _next_move self), self).

End AIPlayer.

(** ** Objects and references

    The classes above are modelled on values.  This module keeps the part of
    Python that the value model leaves out: a [GomokuGame] object names its
    board by reference, [_board_after_move] writes into that board in place,
    and two objects built on one board would see each other's stones.  A
    board is one object here (its rows are reached only through it; the
    constructor and [copy.deepcopy] build fresh rows).  An operation on an
    address that holds no object has no outcome. *)

Module Heap.

Definition loc : Set := nat.

Record obj : Type := mkObj {
  o_board : loc;
  o_valid_moves : list move;
  o_is_white_active : bool;
  o_move_count : Z;
  o_moves_so_far : list move;
  o_last_move : option move;
  o_width : Z;
  o_height : Z
}.

Record store : Type := mkStore {
  boards : gmap loc (list (list Z));
  games : gmap loc obj
}.

(** The game value an object stands for. *)
Definition view (σ : store) (self : loc) : option GomokuGame :=
  o ← games σ !! self;
  b ← boards σ !! o_board o;
  Some {| _board := b;
          _valid_moves := o_valid_moves o;
          _is_white_active := o_is_white_active o;
          _move_count := o_move_count o;
          _moves_so_far := o_moves_so_far o;
          last_move := o_last_move o;
          _width := o_width o;
          _height := o_height o |}.

Definition new_board (b : list (list Z)) (σ : store) : loc * store :=
  let l := fresh (dom (boards σ)) in
  (l, {| boards := <[l:=b]> (boards σ); games := games σ |}).

Definition new_object (o : obj) (σ : store) : loc * store :=
  let l := fresh (dom (games σ)) in
  (l, {| boards := boards σ; games := <[l:=o]> (games σ) |}).

(** [copy.deepcopy(board)]. *)
Definition deepcopy (board : loc) (σ : store) : option (loc * store) :=
  b ← boards σ !! board;
  Some (new_board b σ).

(** [GomokuGame.__init__]: [lst] is built in any case, and the object
    keeps the reference it was given when that list is not empty. *)
Definition __init__ (board : option loc) (white_active : bool)
    (move_count width height : Z) (σ : store) : option (loc * store) :=
  let '(lst, σ) :=
    new_board ((fun _ => (fun _ => 0) <$> range 0 15) <$> range 0 15) σ in
  chosen ← match board with
           | None => Some lst
           | Some l => b ← boards σ !! l;
                       Some (match b with [] => lst | _ :: _ => l end)
           end;
  Some (new_object
          {| o_board := chosen;
             o_is_white_active := white_active;
             o_move_count := move_count;
             o_valid_moves := x ← range 0 15; y ← range 0 15; [(y, x)];
             o_moves_so_far := [];
             o_last_move := None;
             o_width := width;
             o_height := height |} σ).

(** [_board_after_move]: the write goes to the board object itself. *)
Definition _board_after_move (self : loc) (move : move) (σ : store)
  : option (result loc * store) :=
  o ← games σ !! self;
  b ← boards σ !! o_board o;
  match board_set b move.1 move.2 (if o_is_white_active o then 1 else 2) with
  | Ok b' => Some (Ok (o_board o),
                   {| boards := <[o_board o := b']> (boards σ);
                      games := games σ |})
  | Raise e => Some (Raise e, σ)
  end.

(** [make_move]. *)
Definition make_move (self : loc) (move : move) (σ : store)
  : option (result (list output) * store) :=
  o ← games σ !! self;
  if bool_decide (move ∉ o_valid_moves o)
  then Some (Ok [Print_not_valid move], σ)
  else
    '(r, σ) ← _board_after_move self move σ;
    match r with
    | Raise e => Some (Raise e, σ)
    | Ok b =>
        let o' := {| o_board := b;
                     o_is_white_active := negb (o_is_white_active o);
                     o_move_count := o_move_count o + 1;
                     o_last_move := Some move;
                     o_moves_so_far := o_moves_so_far o ++ [move];
                     o_valid_moves := py_remove move (o_valid_moves o);
                     o_width := o_width o;
                     o_height := o_height o |} in
        Some (Ok [], {| boards := boards σ; games := <[self:=o']> (games σ) |})
    end.

(** [copy_and_make_move]. *)
Definition copy_and_make_move (self : loc) (move : move) (σ : store)
  : option (result (option loc) * store) :=
  o ← games σ !! self;
  if bool_decide (move ∉ o_valid_moves o)
  then Some (Ok (@None loc), σ)
  else
    '(b, σ) ← deepcopy (o_board o) σ;
    '(c, σ) ← __init__ (Some b) (o_is_white_active o) (o_move_count o) 15 15 σ;
    '(r, σ) ← make_move c move σ;
    Some (match r with Ok _ => Ok (Some c) | Raise e => Raise e end, σ).

(** The same without the deep copy: the new object shares the board. *)
Definition share_and_make_move (self : loc) (move : move) (σ : store)
  : option (result (option loc) * store) :=
  o ← games σ !! self;
  if bool_decide (move ∉ o_valid_moves o)
  then Some (Ok (@None loc), σ)
  else
    '(c, σ) ← __init__ (Some (o_board o)) (o_is_white_active o)
                       (o_move_count o) 15 15 σ;
    '(r, σ) ← make_move c move σ;
    Some (match r with Ok _ => Ok (Some c) | Raise e => Raise e end, σ).

Definition empty : store := {| boards := ∅; games := ∅ |}.

End Heap.

(** ** Notions used in the statements *)

Definition in_range (m : move) : Prop := 0 <= m.1 <= 14 ∧ 0 <= m.2 <= 14.

(** A 15 x 15 grid, valid moves and last move on the board: what every
    access of the methods above needs in order not to raise. *)
Record wf (g : GomokuGame) : Prop := mk_wf {
  wf_rows : length (_board g) = 15%nat;
  wf_cols : Forall (fun row => length row = 15%nat) (_board g);
  wf_valid : Forall in_range (_valid_moves g);
  wf_last : forall m, last_move g = Some m -> in_range m
}.

(** The live game: [make_move] after [make_move]. *)
Definition play (g : GomokuGame) (moves : list move) : result GomokuGame :=
  foldM (fun g m => fst <$> make_move g m) g moves.

(** The states of a live game, from [GomokuGame()] on. *)
Inductive reachable : GomokuGame -> Prop :=
  | reachable_new : reachable new_game
  | reachable_move g m g' out :
      reachable g -> make_move g m = Ok (g', out) -> reachable g'.

(** The cell [(y, x)] of a grid, [None] off the board. *)
Definition cell (b : list (list Z)) (y x : Z) : option Z :=
  if bool_decide (0 <= y <= 14 ∧ 0 <= x <= 14)
  then row ← b !! Z.to_nat y; row !! Z.to_nat x
  else None.

(** Modelled from the spec: the contiguous run of stones of one colour that
    extends from a cell in one direction, stopping at the board edge or at a
    differing or empty cell (the spec's WinCheck; no bound on its length
    other than the board). *)
Fixpoint run_from (b : list (list Z)) (y x dy dx colour : Z) (fuel : nat) : Z :=
  match fuel with
  | O => 0
  | S fuel' =>
      if bool_decide (cell b (y + dy) (x + dx) = Some colour)
      then 1 + run_from b (y + dy) (x + dx) dy dx colour fuel'
      else 0
  end.

(** Modelled from the spec: the total run through a cell along an axis,
    counted in both directions and including the played stone. *)
Definition run_through (b : list (list Z)) (y x : Z) (axis : Z * Z) (colour : Z) : Z :=
  1 + run_from b y x axis.1 axis.2 colour 15
    + run_from b y x (- axis.1) (- axis.2) colour 15.

(** Row, column and the two diagonals, as [(dy, dx)]. *)
Definition axes : list (Z * Z) := [(0, 1); (1, 0); (1, 1); (1, -1)].

(** Modelled from the spec: a win iff the total run equals exactly 5 on
    some axis. *)
Definition exactly_five (b : list (list Z)) (y x colour : Z) : bool :=
  existsb (fun axis => bool_decide (run_through b y x axis colour = 5)) axes.

(** The score a candidate move gets in the loop of [AIPlayer.make_move]:
    the search one level down on the copy. *)
Definition child_score (self : AIPlayer.t) (game : GomokuGame) (d' : nat)
    (move : move) : result Z :=
  new_game ← copy_and_make_move game move;
  new_game ← AIPlayer.the_game new_game;
  fst <$> AIPlayer.make_move self new_game d'.

(** The search of [AIPlayer.make_move] read off the player object: the
    returned score and the move that the call leaves in [_next_move]. *)
Fixpoint search (game : GomokuGame) (d : nat) : result (Z * option move) :=
  match last_move game with
  | None => Ok (100, Some (7, 7))
  | Some _ =>
      score ← evaluate_game game;
      match d with
      | O => Ok (score, None)
      | S d' =>
          possible_moves ← valid_moves_with_neighbour game 1;
          if bool_decide (length possible_moves = 0%nat) then Ok (score, None)
          else
            foldM (fun '(score, next_move) move =>
                     new_game ← copy_and_make_move game move;
                     new_game ← AIPlayer.the_game new_game;
                     '(x, _) ← search new_game d';
                     if bool_decide (x >= score)
                     then Ok (x, Some move)
                     else Ok (score, next_move))
                  (0, None) possible_moves
      end
  end.

(** The body of the loop of [AIPlayer.make_move] at depth [S d']. *)
Definition minimax_step (game : GomokuGame) (d' : nat)
  : AIPlayer.t * Z * option move -> move -> result (AIPlayer.t * Z * option move) :=
  fun '(self, score, next_move) move =>
    new_game ← copy_and_make_move game move;
    new_game ← AIPlayer.the_game new_game;
    '(x, self) ← AIPlayer.make_move self new_game d';
    if bool_decide (x >= score)
    then Ok (self, x, Some move)
    else Ok (self, score, next_move).

(** The body of the loop of [search] at depth [S d']. *)
Definition search_step (game : GomokuGame) (d' : nat)
  : Z * option move -> move -> result (Z * option move) :=
  fun '(score, next_move) move =>
    new_game ← copy_and_make_move game move;
    new_game ← AIPlayer.the_game new_game;
    '(x, _) ← search new_game d';
    if bool_decide (x >= score)
    then Ok (x, Some move)
    else Ok (score, next_move).

(** The score and the move that a search call leaves behind. *)
Definition outcome {S : Type} (r : S * AIPlayer.t) : S * option move :=
  (r.1, AIPlayer._next_move r.2).

#[global] Instance in_range_dec (m : move) : Decision (in_range m).
Proof. unfold in_range. apply _. Defined.

(** [a] occurs in [b] as a contiguous subsequence. *)
Definition occurs (a b : list Z) : Prop := exists pre post, b = pre ++ a ++ post.

(** What one catalog entry adds to the score of a line. *)
Definition contribution (entry : string * list Z) (line : list Z) : Z :=
  if _check_contain entry.2 line || _check_contain (reverse entry.2) line
  then default 0 (_CHESS_PATTERN_SCORE !! entry.1)
  else 0.

(** ** Concrete games *)

Definition stone_of (c : Ascii.ascii) : Z :=
  if decide (c = Ascii.ascii_of_nat 87) then 1        (* W *)
  else if decide (c = Ascii.ascii_of_nat 66) then 2   (* B *)
  else 0.

Definition grid_of (rows : list string) : list (list Z) :=
  (fun s => stone_of <$> String.list_ascii_of_string s) <$> rows.

(** The cells of a grid that hold [v], in the order of the valid-move list. *)
Definition cells_of (b : list (list Z)) (v : Z) : list move :=
  filter (fun m => cell b m.1 m.2 = Some v) (_valid_moves new_game).

Fixpoint alternate (ws bs : list move) : list move :=
  match ws, bs with
  | w :: ws', b :: bs' => w :: b :: alternate ws' bs'
  | _, _ => ws ++ bs
  end.

(** One stone in the centre. *)
Definition centre_moves : list move := [(7, 7)].

Definition centre_game : GomokuGame :=
  match play new_game centre_moves with
  | Ok g => g
  | Raise _ => new_game
  end.

(** The same state with the colour to move set to [w]. *)
Definition with_white_active (g : GomokuGame) (w : bool) : GomokuGame :=
  {| _board := _board g;
     _valid_moves := _valid_moves g;
     _is_white_active := w;
     _move_count := _move_count g;
     _moves_so_far := _moves_so_far g;
     last_move := last_move g;
     _width := _width g;
     _height := _height g |}.

(** White fills (7,3)..(7,6) and (7,8), then plays (7,7): six in a row. *)
Definition six_moves : list move :=
  [(7, 3); (0, 0); (7, 4); (0, 2); (7, 5); (0, 4); (7, 6); (0, 6); (7, 8); (0, 8);
   (7, 7)].

(** Four stones in a corner, White to move; six candidate moves. *)
Definition corner_moves : list move := [(0, 1); (0, 0); (0, 2); (1, 0)].

(** 224 stones, no five anywhere, White to move; (0,1) is the only empty cell. *)
Definition crowded_grid : list (list Z) := grid_of
  [ "B.BBWWBBWWBBWWB";
    "WBWWBBWWBBWWBBW";
    "WWBBWWBBWWBBWWB";
    "BBWWBBWWBBWWBBW";
    "WWBBWWBBWWBBWWB";
    "BBWWBBWWBBWWBBW";
    "WWBBWWBBWWBBWWB";
    "BBWWBBWWBBWWBBW";
    "WWBBWWBBWWBBWWB";
    "BBWWBBWWBBWWBBW";
    "WWBBWWBBWWBBWWB";
    "BBWWBBWWBBWWBBW";
    "WWBBWWBBWWBBWWB";
    "BBWWBBWWBBWWBBW";
    "WWBBWWBBWWBBWWB" ].

Definition crowded_moves : list move :=
  alternate (cells_of crowded_grid 1) (cells_of crowded_grid 2).

(** A full board whose only five is White's (0,0)..(0,4), exactly five long. *)
Definition full_grid : list (list Z) := grid_of
  [ "WWWWWBBWWBBWWBB";
    "BWWBBWWBBWWBBWW";
    "BBBWWBBWWBBWWBB";
    "BWWBBWWBBWWBBWW";
    "WBBWWBBWWBBWWBB";
    "BWWBBWWBBWWBBWW";
    "WBBWWBBWWBBWWBB";
    "BWWBBWWBBWWBBWW";
    "WBBWWBBWWBBWWBB";
    "BWWBBWWBBWWBBWW";
    "WBBWWBBWWBBWWBB";
    "BWWBBWWBBWWBBWW";
    "WBBWWBBWWBBWWBB";
    "BWWBBWWBBWWBBWW";
    "WBBWWBBWWBBWWBB" ].

(** The same game with White's (0,0) played last, as the 225th move. *)
Definition full_moves : list move :=
  alternate (py_remove (0, 0) (cells_of full_grid 1) ++ [(0, 0)])
            (cells_of full_grid 2).

(** The winner after each move of a game, [winners_along g moves] for the
    states after the first, the first two, ... moves. *)
Fixpoint winners_along (g : GomokuGame) (moves : list move)
  : result (list (option string)) :=
  match moves with
  | [] => Ok []
  | m :: moves' =>
      '(g', _) ← make_move g m;
      w ← get_winner g';
      ws ← winners_along g' moves';
      Ok (w :: ws)
  end.

(** A player as [main.py] builds it: [AIPlayer(game)], depth 4 by default. *)
Definition player : AIPlayer.t := AIPlayer.__init__ new_game (Some 4).

(** Observing the game reached by [moves] from [GomokuGame()]. *)
Definition after {A : Type} (moves : list move) (f : GomokuGame -> result A)
  : result A :=
  g ← play new_game moves; f g.

(** Observing the copy that [copy_and_make_move] returns. *)
Definition on_copy {A : Type} (g : GomokuGame) (m : move)
    (f : GomokuGame -> result A) : result A :=
  c ← copy_and_make_move g m; c ← AIPlayer.the_game c; f c.

(** The sum of a list of integers. *)
Definition sumZ (l : list Z) : Z := foldr Z.add 0 l.

(** ** Notions used for the remaining functions *)

(** What holds of every state of a live game. *)
Record live_inv (g : GomokuGame) : Prop := mk_live_inv {
  live_wf : wf g;
  live_valid_nodup : NoDup (_valid_moves g);
  live_valid : forall m, m ∈ _valid_moves g
                          <-> in_range m ∧ cell (_board g) m.1 m.2 = Some 0;
  live_count : _move_count g = Z.of_nat (length (_moves_so_far g));
  live_turn : _is_white_active g = Nat.even (length (_moves_so_far g));
  live_last : last_move g = last (_moves_so_far g);
  live_stones : forall i m, _moves_so_far g !! i = Some m ->
                  in_range m
                  ∧ cell (_board g) m.1 m.2 = Some (if Nat.even i then 1 else 2);
  live_occupied : forall m, in_range m -> cell (_board g) m.1 m.2 ≠ Some 0 ->
                    m ∈ _moves_so_far g;
  live_history_nodup : NoDup (_moves_so_far g);
  live_total : (length (_valid_moves g) + length (_moves_so_far g) = 225)%nat
}.


(** The run of [colour] from [(y, x)] in the direction
    [(x_direction, y_direction)], cut off at four stones. *)
Definition capped_run (b : list (list Z)) (y x : Z) (d : Z * Z) (colour : Z) : Z :=
  Z.min 4 (run_from b y x d.2 d.1 colour 15).

(** An axis of [_DIRECTIONS] on which the capped run of the first direction
    is four, or the capped runs of the two directions add up to four. *)
Definition axis_reported (b : list (list Z)) (y x colour : Z)
    (axis : list (Z * Z)) : bool :=
  match axis with
  | [d1; d2] =>
      bool_decide (capped_run b y x d1 colour = 4)
      || bool_decide (capped_run b y x d1 colour + capped_run b y x d2 colour = 4)
  | _ => false
  end.

(** A stone within [radius] rows and columns of [m], the cell of [m]
    included. *)
Definition near_stone (b : list (list Z)) (m : move) (radius : Z) : Prop :=
  exists y x v,
    m.1 - radius <= y <= m.1 + radius ∧ m.2 - radius <= x <= m.2 + radius
    ∧ cell b y x = Some v ∧ v ≠ 0.

(** ** The board on the screen *)

(** [_GRID_SIZE], 70 in [project_game.py] and in [main.py]. *)
Definition _GRID_SIZE : Z := 70.

(** [_each_unit_grid]: left edge, top edge, width and height of the square
    that [draw_stone] uses for the move [(x_axis, y_axis)]. *)
Definition _each_unit_grid (x_axis y_axis : Z) : list Z :=
  let x_coordinate := x_axis * _GRID_SIZE in
  let y_coordinate := y_axis * _GRID_SIZE in
  [x_coordinate; y_coordinate; _GRID_SIZE; _GRID_SIZE].

(** What [handle_mouse_click] reads of a pygame event. *)
Record event : Set := mkEvent {
  pos : Z * Z;
  button : Z
}.

(** [handle_mouse_click] of [main.py]: the game after the call and what was
    printed.  [//] is floor division. *)
Definition handle_mouse_click (game : GomokuGame) (event : event)
  : result (GomokuGame * list output) :=
  if bool_decide (button event = 1)
  then make_move game ((pos event).1 `div` _GRID_SIZE, (pos event).2 `div` _GRID_SIZE)
  else Ok (game, []).

(** ** The board on the console *)

(** [sep.join(l)]. *)
Fixpoint join (sep : string) (l : list string) : string :=
  match l with
  | [] => EmptyString
  | [s] => s
  | s :: l' => s +:+ sep +:+ join sep l'
  end.

(** [printing_board]: the lines printed, top row first. *)
Definition printing_board (self : GomokuGame) : result (list string) :=
  str_board ←
    mapM_r (fun i =>
              mapM_r (fun j =>
                        v ← board_at (_board self) i j;
                        if bool_decide (v = 1) then Ok "@"
                        else
                          v ← board_at (_board self) i j;
                          if bool_decide (v = 2) then Ok "#" else Ok " ")
                     (range 0 15))
           (range 0 15);
  mapM_r (fun i => row ← py_getitem str_board i; Ok (join " -- " row))
         (range 0 15).

(** The character that [printing_board] shows for a cell. *)
Definition symbol (v : Z) : Ascii.ascii :=
  if bool_decide (v = 1) then Ascii.ascii_of_nat 64
  else if bool_decide (v = 2) then Ascii.ascii_of_nat 35
  else Ascii.ascii_of_nat 32.

(** ** The loop of the pruning search *)

(** The body of the loop of [AIPlayer.make_move_and_prune] at depth
    [S d']: the new locals and whether the loop broke. *)
Definition prune_step (game : GomokuGame) (d' : nat) (beta : num)
  : AIPlayer.t * num * option move -> move
    -> result (AIPlayer.t * num * option move * bool) :=
  fun '(self, alpha, next_move) move =>
    new_game ← copy_and_make_move game move;
    new_game ← AIPlayer.the_game new_game;
    '(r, self) ← AIPlayer.make_move_and_prune self new_game d'
                    (num_neg beta) (num_neg alpha);
    let score := num_neg r in
    if num_gt score alpha
    then Ok ((self, score, Some move), num_ge score beta)
    else Ok ((self, alpha, next_move), false).
(** * Theorems *)

(** ** The error monad *)

Lemma bind_Ok {A B : Type} (m : result A) (f : A -> result B) (b : B) :
  m ≫= f = Ok b <-> exists a, m = Ok a ∧ f a = Ok b.
Proof.
  destruct m as [a|e]; simpl; split.
  - intros H. exists a. done.
  - intros (a' & [= <-] & H). done.
  - intros [=].
  - intros (a' & [=] & _).
Qed.

Lemma fmap_Ok {A B : Type} (f : A -> B) (m : result A) (b : B) :
  f <$> m = Ok b <-> exists a, m = Ok a ∧ b = f a.
Proof.
  destruct m as [a|e]; simpl; split.
  - intros [= <-]. eauto.
  - intros (a' & [= <-] & ->). done.
  - intros [=].
  - intros (a' & [=] & _).
Qed.

Lemma foldM_cons {A B : Type} (body : B -> A -> result B) (acc : B) (x : A) (l : list A) :
  foldM body acc (x :: l) = body acc x ≫= fun acc' => foldM body acc' l.
Proof. reflexivity. Qed.

(** ** The line evaluator *)

Lemma range_elem (a b x : Z) : x ∈ range a b <-> a <= x < b.
Proof. unfold range. rewrite elem_of_seqZ. lia. Qed.

(** [_check_contain] decides occurrence as a contiguous subsequence. *)
Lemma _check_contain_occurs (a b : list Z) :
  _check_contain a b = true <-> occurs a b.
Proof.
  unfold _check_contain, occurs. rewrite existsb_exists. split.
  - intros (i & Hi & Heq).
    apply bool_decide_eq_true_1 in Heq.
    exists (take (Z.to_nat i) b), (drop (length a) (drop (Z.to_nat i) b)).
    rewrite <- (take_drop (Z.to_nat i) b) at 1. f_equal.
    rewrite <- (take_drop (length a) (drop (Z.to_nat i) b)) at 1. by f_equal.
  - intros (pre & post & ->).
    exists (Z.of_nat (length pre)). split.
    + apply list_elem_of_In, range_elem. rewrite !length_app. lia.
    + apply bool_decide_eq_true_2.
      rewrite Nat2Z.id, drop_app_length, take_app_length. done.
Qed.

Lemma occurs_reverse (a b : list Z) : occurs a (reverse b) <-> occurs (reverse a) b.
Proof.
  unfold occurs. split.
  - intros (pre & post & H). exists (reverse post), (reverse pre).
    rewrite <- (reverse_involutive b), H, !reverse_app. by rewrite <- (assoc_L (++)).
  - intros (pre & post & ->). exists (reverse post), (reverse pre).
    rewrite !reverse_app, reverse_involutive. by rewrite <- (assoc_L (++)).
Qed.

Lemma _check_contain_reverse (a b : list Z) :
  _check_contain a (reverse b) = _check_contain (reverse a) b.
Proof.
  apply eq_true_iff_eq. by rewrite !_check_contain_occurs, occurs_reverse.
Qed.

Lemma contribution_reverse (entry : string * list Z) (line : list Z) :
  contribution entry (reverse line) = contribution entry line.
Proof.
  unfold contribution.
  rewrite !_check_contain_reverse, reverse_involutive.
  by rewrite (orb_comm (_check_contain (reverse entry.2) line)).
Qed.

(** The score table is looked up, never unfolded, in the proofs below. *)
Opaque _CHESS_PATTERN_SCORE.

(** Every key of the pattern dictionary has a score. *)
Lemma pattern_keys_scored :
  Forall (fun entry => is_Some (_CHESS_PATTERN_SCORE !! entry.1)) _CHESS_PATTERN_BLACK.
Proof. apply (bool_decide_unpack _). vm_compute. exact I. Qed.

(** The loop of [_evaluate_line] adds up the contributions. *)
Lemma evaluate_loop_sum (line : list Z) (entries : list (string * list Z)) (score : Z) :
  Forall (fun entry => is_Some (_CHESS_PATTERN_SCORE !! entry.1)) entries ->
  foldM (fun score '(key, a_1) =>
           let a_2 := reverse a_1 in
           let b := line in
           if _check_contain a_1 b || _check_contain a_2 b
           then match _CHESS_PATTERN_SCORE !! key with
                | Some s => Ok (score + s)
                | None => Raise KeyError
                end
           else Ok score) score entries
  = Ok (score + sumZ ((fun entry => contribution entry line) <$> entries)).
Proof.
  intros H. revert score. unfold sumZ.
  induction H as [|[key a_1] entries [s Hs] _ IH]; intros score.
  - simpl. f_equal. lia.
  - simpl in *. unfold contribution at 1. simpl. rewrite Hs. simpl.
    destruct (_check_contain a_1 line || _check_contain (reverse a_1) line);
      simpl; rewrite IH; f_equal.
  all: rewrite <- ?Z.add_assoc, ?Z.add_0_l; reflexivity.
Qed.

Lemma _evaluate_line_sum (line : list Z) :
  _evaluate_line line
  = Ok (sumZ ((fun entry => contribution entry line) <$> _CHESS_PATTERN_BLACK)).
Proof.
  unfold _evaluate_line. rewrite evaluate_loop_sum by apply pattern_keys_scored.
  done.
Qed.

(** C9.  [_evaluate_line] gives a line and its reversal the same score, and
    so does every entry of the catalog on its own; the score is the sum over
    the catalog of the entries' contributions, and an entry contributes its
    score when its signature or the reversed signature occurs in the line as
    a contiguous subsequence, and nothing otherwise. *)
Theorem evaluate_line_reversal_additive (line : list Z) :
  _evaluate_line (reverse line) = _evaluate_line line
  ∧ _evaluate_line line
    = Ok (sumZ ((fun entry => contribution entry line) <$> _CHESS_PATTERN_BLACK))
  ∧ Forall (fun entry =>
              contribution entry (reverse line) = contribution entry line
              ∧ exists s, _CHESS_PATTERN_SCORE !! entry.1 = Some s
                  ∧ (((occurs entry.2 line ∨ occurs (reverse entry.2) line)
                      ∧ contribution entry line = s)
                     ∨ (¬ (occurs entry.2 line ∨ occurs (reverse entry.2) line)
                        ∧ contribution entry line = 0)))
           _CHESS_PATTERN_BLACK.
Proof.
  split_and!.
  - rewrite !_evaluate_line_sum. do 2 f_equal.
    apply list_fmap_ext. intros _ entry _. apply contribution_reverse.
  - apply _evaluate_line_sum.
  - eapply Forall_impl; [apply pattern_keys_scored|].
    intros entry [s Hs]. split; [apply contribution_reverse|].
    exists s. split; [done|]. unfold contribution. rewrite Hs. simpl.
    destruct (_check_contain entry.2 line) eqn:E1;
      destruct (_check_contain (reverse entry.2) line) eqn:E2; simpl.
    + left. split; [|done]. left. by apply _check_contain_occurs.
    + left. split; [|done]. left. by apply _check_contain_occurs.
    + left. split; [|done]. right. by apply _check_contain_occurs.
    + right. split; [|done]. intros [H|H]; apply _check_contain_occurs in H; congruence.
Qed.

(** ** List accesses that stay on the board *)

Definition board_ok (b : list (list Z)) : Prop :=
  length b = 15%nat ∧ Forall (fun row => length row = 15%nat) b.

Lemma py_index_in {A : Type} (l : list A) (i : Z) :
  0 <= i < Z.of_nat (length l) -> py_index l i = Some (Z.to_nat i).
Proof. intros H. unfold py_index. by rewrite bool_decide_eq_true_2. Qed.

Lemma py_getitem_in {A : Type} (l : list A) (i : Z) :
  0 <= i < Z.of_nat (length l) ->
  exists x, py_getitem l i = Ok x ∧ l !! Z.to_nat i = Some x.
Proof.
  intros H. unfold py_getitem. rewrite py_index_in by done.
  destruct (lookup_lt_is_Some_2 l (Z.to_nat i)) as [x Hx]; [lia|].
  rewrite Hx. eauto.
Qed.

Lemma py_setitem_in {A : Type} (l : list A) (i : Z) (v : A) :
  0 <= i < Z.of_nat (length l) -> py_setitem l i v = Ok (<[Z.to_nat i:=v]> l).
Proof. intros H. unfold py_setitem. by rewrite py_index_in. Qed.

Lemma board_ok_row (b : list (list Z)) (y : Z) :
  board_ok b -> 0 <= y <= 14 ->
  exists row, py_getitem b y = Ok row ∧ b !! Z.to_nat y = Some row
              ∧ length row = 15%nat.
Proof.
  intros [Hlen Hrows] Hy.
  destruct (py_getitem_in b y) as (row & Hget & Hrow); [lia|].
  exists row. split_and!; [done..|].
  rewrite Forall_forall in Hrows. apply Hrows. by eapply list_elem_of_lookup_2.
Qed.

(** On a 15 x 15 grid, reading a cell of the board does not raise. *)
Lemma board_at_in (b : list (list Z)) (y x : Z) :
  board_ok b -> 0 <= y <= 14 -> 0 <= x <= 14 ->
  exists v, board_at b y x = Ok v ∧ cell b y x = Some v.
Proof.
  intros Hb Hy Hx. destruct (board_ok_row b y Hb Hy) as (row & Hget & Hrow & Hlen).
  destruct (py_getitem_in row x) as (v & Hv & Hv'); [lia|].
  exists v. unfold board_at, cell. rewrite Hget. simpl. split; [done|].
  rewrite bool_decide_eq_true_2 by lia. rewrite Hrow. done.
Qed.

(** On a 15 x 15 grid, writing a cell of the board does not raise and keeps
    the shape. *)
Lemma board_set_in (b : list (list Z)) (y x v : Z) :
  board_ok b -> 0 <= y <= 14 -> 0 <= x <= 14 ->
  exists b', board_set b y x v = Ok b' ∧ board_ok b'.
Proof.
  intros Hb Hy Hx. destruct (board_ok_row b y Hb Hy) as (row & Hget & Hrow & Hlen).
  destruct Hb as [Hrows Hcols].
  exists (<[Z.to_nat y := <[Z.to_nat x := v]> row]> b). split.
  - unfold board_set. rewrite Hget. simpl.
    rewrite py_setitem_in by lia. simpl. by rewrite py_setitem_in by lia.
  - split; [by rewrite length_insert|].
    apply Forall_insert; [done|]. by rewrite length_insert.
Qed.

Lemma mapM_r_total {A B : Type} (f : A -> result B) (l : list A) :
  Forall (fun x => exists y, f x = Ok y) l -> exists ys, mapM_r f l = Ok ys.
Proof.
  induction 1 as [|x l [y Hy] _ [ys IH]]; simpl; [eauto|].
  rewrite Hy. simpl. rewrite IH. simpl. eauto.
Qed.

Lemma enumerate_Forall {A : Type} (P : Z * A -> Prop) (l : list A) :
  (forall i x, x ∈ l -> P (i, x)) -> Forall P (enumerate l).
Proof.
  intros H. apply Forall_forall. intros [i x] Hin.
  unfold enumerate in Hin. apply elem_of_lookup_imap in Hin as (k & y & [= -> ->] & Hk).
  apply H. by eapply list_elem_of_lookup_2.
Qed.

(** [getline] returns a line for each of the four directions. *)
Lemma getline_total (center : move) (direction : Z) (b : list (list Z)) :
  board_ok b -> in_range center -> direction ∈ [0; 1; 2; 3] ->
  exists line, getline center direction b = Ok (Some line).
Proof.
  intros Hb [Hy Hx] Hd. pose proof Hb as [Hrows Hcols].
  rewrite Forall_forall in Hcols.
  assert (Hcases : direction = 0 ∨ direction = 1 ∨ direction = 2 ∨ direction = 3).
  { repeat (apply elem_of_cons in Hd as [Hd|Hd]; [auto|]). by apply elem_of_nil in Hd. }
  unfold getline.
  destruct Hcases as [-> | [-> | [-> | ->] ] ]; simpl.
  - destruct (board_ok_row b center.1 Hb Hy) as (row & -> & _). simpl. eauto.
  - destruct (mapM_r_total (fun lst => py_getitem lst center.2) b) as [ys ->].
    + apply Forall_forall. intros row Hrow.
      destruct (py_getitem_in row center.2) as (v & Hv & _);
        [rewrite (Hcols row Hrow); lia|eauto].
    + simpl. eauto.
  - match goal with |- context [mapM_r ?f ?l] =>
      destruct (mapM_r_total f l) as [ys ->] end.
    + apply enumerate_Forall. intros i row Hrow.
      repeat case_bool_decide; simpl; eauto.
      destruct (py_getitem_in row (center.2 + i - center.1)) as (v & Hv & _);
        [rewrite (Hcols row Hrow); lia|eauto].
    + simpl. eauto.
  - match goal with |- context [mapM_r ?f ?l] =>
      destruct (mapM_r_total f l) as [ys ->] end.
    + apply enumerate_Forall. intros i row Hrow.
      repeat case_bool_decide; simpl; eauto.
      destruct (py_getitem_in row (center.1 - i + center.2)) as (v & Hv & _);
        [rewrite (Hcols row Hrow); lia|eauto].
    + simpl. eauto.
Qed.

(** [evaluate_game] returns a score on a 15 x 15 grid with a last move on
    the board. *)
Lemma evaluate_game_total (g : GomokuGame) (m : move) :
  board_ok (_board g) -> last_move g = Some m -> in_range m ->
  exists s, evaluate_game g = Ok s.
Proof.
  intros Hb Hm Hr. unfold evaluate_game. rewrite Hm.
  assert (Hline : forall direction, direction ∈ [0; 1; 2; 3] ->
            exists o n, generate_line g (Some m) direction = Ok (Some o, Some n)).
  { intros direction Hd. unfold generate_line, deepcopy.
    destruct (board_set_in (_board g) m.1 m.2 0 Hb) as (b' & -> & Hb');
      [apply Hr..|].
    simpl.
    destruct (getline_total m direction b' Hb' Hr Hd) as [o ->].
    destruct (getline_total m direction (_board g) Hb Hr Hd) as [n ->].
    simpl. eauto. }
  assert (Hloop : forall ds score, ds ⊆ [0; 1; 2; 3] ->
            exists s, foldM (fun score direction =>
                '(old_line, new_line) ← generate_line g (Some m) direction;
                new_score ← evaluate_line_of new_line;
                old_score ← evaluate_line_of old_line;
                Ok (score + (new_score - old_score))) score ds = Ok s).
  { induction ds as [|d ds IH]; intros score Hsub; [simpl; eauto|].
    rewrite foldM_cons.
    destruct (Hline d) as (o & n & ->); [set_solver|].
    cbn -[_evaluate_line foldM]. rewrite !_evaluate_line_sum.
    cbn -[foldM]. apply IH. set_solver. }
  by apply Hloop.
Qed.

(** C10.  [evaluate_game] reads the grid and the last move and nothing
    else: two states that agree on both get the same outcome, whatever the
    colour to move (and the counters, history and valid moves) of each; on a
    15 x 15 grid with a last move on the board that outcome is a score. *)
Theorem evaluate_game_ignores_turn (g1 g2 : GomokuGame) :
  _board g1 = _board g2 ->
  last_move g1 = last_move g2 ->
  evaluate_game g1 = evaluate_game g2
  ∧ (forall m, board_ok (_board g1) -> last_move g1 = Some m -> in_range m ->
       exists s, evaluate_game g1 = Ok s ∧ evaluate_game g2 = Ok s).
Proof.
  intros Hb Hm.
  assert (Heq : evaluate_game g1 = evaluate_game g2).
  { unfold evaluate_game, generate_line. by rewrite Hb, Hm. }
  split; [done|]. intros m Hok Hlast Hr.
  destruct (evaluate_game_total g1 m Hok Hlast Hr) as [s Hs].
  exists s. by rewrite <- Heq.
Qed.

Lemma centre_game_board_ok : board_ok (_board centre_game).
Proof. split; [reflexivity|]. repeat constructor. Qed.

Lemma evaluate_game_ignores_turn_witness :
  _is_white_active centre_game ≠ _is_white_active (with_white_active centre_game true)
  ∧ evaluate_game centre_game = evaluate_game (with_white_active centre_game true)
  ∧ (forall m, board_ok (_board centre_game) -> last_move centre_game = Some m ->
       in_range m ->
       exists s, evaluate_game centre_game = Ok s
                 ∧ evaluate_game (with_white_active centre_game true) = Ok s).
Proof.
  split; [discriminate|].
  apply (evaluate_game_ignores_turn centre_game (with_white_active centre_game true));
    reflexivity.
Defined.

(** ** Moves on well-formed states *)

Lemma new_game_valid_moves (m : move) : m ∈ _valid_moves new_game <-> in_range m.
Proof.
  unfold new_game, __init__, in_range. cbn [_valid_moves]. destruct m as [y x].
  cbn [fst snd]. rewrite list_elem_of_bind. split.
  - intros (x' & Hin & Hx). apply list_elem_of_bind in Hin as (y' & Hin & Hy).
    apply list_elem_of_singleton in Hin as [= -> ->].
    apply range_elem in Hx, Hy. lia.
  - intros [Hy Hx]. exists x. split; [|apply range_elem; lia].
    apply list_elem_of_bind. exists y. split; [|apply range_elem; lia].
    by apply list_elem_of_singleton.
Qed.

Lemma py_remove_Forall {A : Type} `{EqDecision A} (P : A -> Prop) (x : A) (l : list A) :
  Forall P l -> Forall P (py_remove x l).
Proof.
  induction 1 as [|y l Hy Hl IH]; simpl; [constructor|].
  case_decide; [done|]. by constructor.
Qed.

Lemma py_remove_elem {A : Type} `{EqDecision A} (x y : A) (l : list A) :
  y ∈ py_remove x l -> y ∈ l.
Proof.
  induction l as [|z l IH]; simpl; [done|].
  case_decide; [by right|].
  intros [->|H']%elem_of_cons; [by left|right; auto].
Qed.

(** A valid move on the board is applied: the stone of the colour to move
    is written, the turn passes, the count grows by one, the move becomes the
    last move, is appended to the history and leaves the valid moves. *)
Lemma make_move_valid (g : GomokuGame) (m : move) :
  board_ok (_board g) -> in_range m -> m ∈ _valid_moves g ->
  exists b',
    board_set (_board g) m.1 m.2 (if _is_white_active g then 1 else 2) = Ok b'
    ∧ board_ok b'
    ∧ make_move g m
      = Ok ({| _board := b';
               _is_white_active := negb (_is_white_active g);
               _move_count := _move_count g + 1;
               last_move := Some m;
               _moves_so_far := _moves_so_far g ++ [m];
               _valid_moves := py_remove m (_valid_moves g);
               _width := _width g;
               _height := _height g |}, []).
Proof.
  intros Hb [Hy Hx] Hin.
  destruct (board_set_in (_board g) m.1 m.2 (if _is_white_active g then 1 else 2) Hb)
    as (b' & Hset & Hb'); [done..|].
  exists b'. split_and!; [done..|].
  unfold make_move. rewrite bool_decide_eq_false_2 by (by intros H; apply H).
  unfold _board_after_move.
  destruct (_is_white_active g); rewrite Hset; done.
Qed.

(** A move that is not in the valid moves changes nothing and raises
    nothing: the call returns after printing. *)
Lemma make_move_not_valid (g : GomokuGame) (m : move) :
  m ∉ _valid_moves g -> make_move g m = Ok (g, [Print_not_valid m]).
Proof. intros H. unfold make_move. by rewrite bool_decide_eq_true_2. Qed.

Lemma make_move_wf (g g' : GomokuGame) (m : move) (out : list output) :
  wf g -> make_move g m = Ok (g', out) -> wf g'.
Proof.
  intros Hwf Hmove. destruct (decide (m ∈ _valid_moves g)) as [Hin|Hin].
  - destruct Hwf as [Hrows Hcols Hvalid Hlast].
    assert (Hr : in_range m) by (rewrite Forall_forall in Hvalid; auto).
    destruct (make_move_valid g m) as (b' & _ & [Hrows' Hcols'] & Heq);
      [by split|done..|].
    rewrite Heq in Hmove. injection Hmove as <- <-.
    split; simpl; [done..| |].
    + by apply py_remove_Forall.
    + by intros ? [= <-].
  - rewrite make_move_not_valid in Hmove by done. by injection Hmove as <- <-.
Qed.

Lemma new_game_wf : wf new_game.
Proof.
  split.
  - reflexivity.
  - repeat constructor.
  - apply Forall_forall. intros m. apply new_game_valid_moves.
  - intros m [=].
Qed.

(** Every state of a live game is well formed. *)
Lemma reachable_wf (g : GomokuGame) : reachable g -> wf g.
Proof.
  induction 1 as [|g m g' out _ IH Hmove]; [apply new_game_wf|].
  by eapply make_move_wf.
Qed.

(** For a valid move of a well-formed state, [copy_and_make_move] returns a
    copy, well formed again, with the move as its last move. *)
Lemma copy_and_make_move_valid (g : GomokuGame) (m : move) :
  wf g -> m ∈ _valid_moves g ->
  exists c, copy_and_make_move g m = Ok (Some c) ∧ wf c ∧ last_move c = Some m.
Proof.
  intros [Hrows Hcols Hvalid Hlast] Hin.
  assert (Hr : in_range m) by (rewrite Forall_forall in Hvalid; auto).
  unfold copy_and_make_move, deepcopy.
  rewrite bool_decide_eq_false_2 by (by intros H; apply H).
  set (c := __init__ _ _ _ _ _).
  assert (Hc : _board c = _board g).
  { unfold c, __init__. simpl. by destruct (_board g). }
  destruct (make_move_valid c m) as (b' & _ & [Hrows' Hcols'] & ->).
  - rewrite Hc. by split.
  - done.
  - by apply new_game_valid_moves.
  - cbn [mbind result_bind]. eexists. split; [done|]. split; [|done].
    split; cbn [_board _valid_moves last_move]; [done..| |].
    + apply py_remove_Forall, Forall_forall. intros m'. apply new_game_valid_moves.
    + by intros ? [= <-].
Qed.

(** For a move that is not valid, [copy_and_make_move] returns [None]. *)
Lemma copy_and_make_move_not_valid (g : GomokuGame) (m : move) :
  m ∉ _valid_moves g -> copy_and_make_move g m = Ok None.
Proof. intros H. unfold copy_and_make_move. by rewrite bool_decide_eq_true_2. Qed.

(** ** Candidate moves *)

Lemma anyM_total {A : Type} (p : A -> result bool) (l : list A) :
  Forall (fun x => exists b, p x = Ok b) l -> exists b, anyM p l = Ok b.
Proof.
  induction 1 as [|x l [b Hb] _ [b' IH]]; simpl; [eauto|].
  rewrite Hb. simpl. destruct b; eauto.
Qed.

Lemma _check_neighbour_total (g : GomokuGame) (m : move) (radius : Z) :
  board_ok (_board g) -> exists b, _check_neighbour g m radius = Ok b.
Proof.
  intros Hb. unfold _check_neighbour. apply anyM_total, Forall_forall. intros y _.
  apply anyM_total, Forall_forall. intros x _.
  destruct (bool_decide (0 <= y <= 14)) eqn:Hy;
    destruct (bool_decide (0 <= x <= 14)) eqn:Hx; simpl; eauto.
  apply bool_decide_eq_true_1 in Hy, Hx.
  destruct (board_at_in (_board g) y x Hb Hy Hx) as (v & -> & _). simpl. eauto.
Qed.

Lemma filterM_r_total {A : Type} (p : A -> result bool) (l : list A) :
  Forall (fun x => exists b, p x = Ok b) l ->
  exists l', filterM_r p l = Ok l' ∧ l' ⊆ l.
Proof.
  induction 1 as [|x l [b Hb] _ (l' & IH & Hsub)]; simpl.
  - exists []. done.
  - rewrite Hb. simpl. rewrite IH. simpl. destruct b; eexists; (split; [done|]).
    + by apply list_subseteq_skip.
    + by apply list_subseteq_cons.
Qed.

(** On a 15 x 15 grid the candidate moves are computed, and they are valid
    moves. *)
Lemma valid_moves_with_neighbour_total (g : GomokuGame) (radius : Z) :
  board_ok (_board g) ->
  exists l, valid_moves_with_neighbour g radius = Ok l ∧ l ⊆ _valid_moves g.
Proof.
  intros Hb. unfold valid_moves_with_neighbour.
  apply filterM_r_total, Forall_forall. intros m _. by apply _check_neighbour_total.
Qed.

(** ** Plain minimax *)

Lemma make_move_O (self : AIPlayer.t) (g : GomokuGame) :
  AIPlayer.make_move self g 0
  = match last_move g with
    | None => Ok (100, AIPlayer.set_next_move (AIPlayer.set_next_move self None)
                                             (Some (7, 7)))
    | Some _ => _ ← evaluate_game g; score ← evaluate_game g;
                Ok (score, AIPlayer.set_next_move self None)
    end.
Proof. reflexivity. Qed.

Lemma make_move_S (self : AIPlayer.t) (g : GomokuGame) (d' : nat) :
  AIPlayer.make_move self g (S d')
  = match last_move g with
    | None => Ok (100, AIPlayer.set_next_move (AIPlayer.set_next_move self None)
                                             (Some (7, 7)))
    | Some _ =>
        score ← evaluate_game g;
        possible_moves ← valid_moves_with_neighbour g 1;
        if bool_decide (length possible_moves = 0%nat)
        then Ok (score, AIPlayer.set_next_move self None)
        else
          '(self, score, next_move) ←
            foldM (minimax_step g d') (AIPlayer.set_next_move self None, 0, None)
                  possible_moves;
          Ok (score, AIPlayer.set_next_move self next_move)
    end.
Proof. reflexivity. Qed.

Lemma search_O (g : GomokuGame) :
  search g 0
  = match last_move g with
    | None => Ok (100, Some (7, 7))
    | Some _ => score ← evaluate_game g; Ok (score, None)
    end.
Proof. reflexivity. Qed.

Lemma search_S (g : GomokuGame) (d' : nat) :
  search g (S d')
  = match last_move g with
    | None => Ok (100, Some (7, 7))
    | Some _ =>
        score ← evaluate_game g;
        possible_moves ← valid_moves_with_neighbour g 1;
        if bool_decide (length possible_moves = 0%nat) then Ok (score, None)
        else foldM (search_step g d') (0, None) possible_moves
    end.
Proof. reflexivity. Qed.

Lemma minimax_step_eq (g : GomokuGame) (d' : nat) (self : AIPlayer.t)
    (score : Z) (next_move : option move) (move : move) :
  minimax_step g d' (self, score, next_move) move
  = (new_game ← copy_and_make_move g move;
     new_game ← AIPlayer.the_game new_game;
     '(x, self) ← AIPlayer.make_move self new_game d';
     if bool_decide (x >= score)
     then Ok (self, x, Some move)
     else Ok (self, score, next_move)).
Proof. reflexivity. Qed.

Lemma search_step_eq (g : GomokuGame) (d' : nat)
    (score : Z) (next_move : option move) (move : move) :
  search_step g d' (score, next_move) move
  = (new_game ← copy_and_make_move g move;
     new_game ← AIPlayer.the_game new_game;
     '(x, _) ← search new_game d';
     if bool_decide (x >= score)
     then Ok (x, Some move)
     else Ok (score, next_move)).
Proof. reflexivity. Qed.

(** Reduction of the monad's operations alone. *)
Tactic Notation "step" :=
  cbn [mbind result_bind fmap result_fmap mret result_ret outcome fst snd
       AIPlayer.the_game AIPlayer._next_move AIPlayer.set_next_move].
Tactic Notation "step" "in" hyp(H) :=
  cbn [mbind result_bind fmap result_fmap mret result_ret outcome fst snd
       AIPlayer.the_game AIPlayer._next_move AIPlayer.set_next_move] in H.


(** The player object carries nothing into the result: the score and the
    move left in [_next_move] are those of [search]. *)
Lemma make_move_search (d : nat) (self : AIPlayer.t) (g : GomokuGame) :
  outcome <$> AIPlayer.make_move self g d = search g d.
Proof.
  revert self g. induction d as [|d' IH]; intros self g.
  - rewrite make_move_O, search_O. destruct (last_move g); [|done].
    destruct (evaluate_game g); done.
  - rewrite make_move_S, search_S. destruct (last_move g); [|done].
    destruct (evaluate_game g) as [score|]; step; [|done].
    destruct (valid_moves_with_neighbour g 1) as [possible_moves|]; step; [|done].
    case_bool_decide; [done|].
    assert (Hloop : forall l acc p,
              (fun r => (r.1.2, r.2)) <$> foldM (minimax_step g d') (p, acc.1, acc.2) l
              = foldM (search_step g d') acc l).
    { induction l as [|m' l IHl]; intros [best nm] p; [done|].
      rewrite !foldM_cons. step. rewrite minimax_step_eq, search_step_eq.
      destruct (copy_and_make_move g m') as [[c|]|]; step; [|done..].
      rewrite <- (IH p c).
      destruct (AIPlayer.make_move p c d') as [[x p']|]; step; [|done].
      case_bool_decide; apply (IHl (_, _)). }
    rewrite <- (Hloop possible_moves (0, None) (AIPlayer.set_next_move self None)).
    step.
    by destruct (foldM _ _ _) as [[[p' s'] nm']|].
Qed.

Lemma child_score_search (self : AIPlayer.t) (g : GomokuGame) (d' : nat) (m : move) :
  child_score self g d' m
  = (new_game ← copy_and_make_move g m;
     new_game ← AIPlayer.the_game new_game;
     fst <$> search new_game d').
Proof.
  unfold child_score.
  destruct (copy_and_make_move g m) as [[c|]|]; step; [|done..].
  rewrite <- make_move_search with (self := self).
  by destruct (AIPlayer.make_move self c d') as [[x p]|].
Qed.

(** The search returns on every well-formed state, at every depth. *)
Lemma search_total (d : nat) (g : GomokuGame) : wf g -> exists r, search g d = Ok r.
Proof.
  revert g. induction d as [|d' IH]; intros g Hwf.
  - rewrite search_O. destruct (last_move g) as [m|] eqn:Hm; [|eauto].
    destruct (evaluate_game_total g m) as [s ->];
      [split; apply Hwf|done|by apply Hwf|]. step. eauto.
  - rewrite search_S. destruct (last_move g) as [m|] eqn:Hm; [|eauto].
    destruct (evaluate_game_total g m) as [s ->];
      [split; apply Hwf|done|by apply Hwf|]. step.
    destruct (valid_moves_with_neighbour_total g 1) as (l & -> & Hsub);
      [split; apply Hwf|]. step.
    case_bool_decide as Hlen; [eauto|]. clear Hlen.
    generalize (0, @None move) as acc.
    induction l as [|m' l IHl]; intros [best nm]; [simpl; eauto|].
    rewrite foldM_cons, search_step_eq.
    destruct (copy_and_make_move_valid g m' Hwf) as (c & -> & Hc & _).
    { apply Hsub. by left. }
    step. destruct (IH c Hc) as [[x nm'] ->]. step.
    case_bool_decide; apply IHl; intros y Hy; apply Hsub; by right.
Qed.

(** The loop of plain minimax, started from a running best [best >= 0]
    that has a move unless it is 0: the best stays non-negative, a retained
    move is the one held before or one of the moves looped over, and no move
    is retained only if none was held and every child score was negative. *)
Lemma search_loop_move (g : GomokuGame) (d' : nat) (l : list move)
    (best : Z) (nm : option move) (best' : Z) (nm' : option move) :
  foldM (search_step g d') (best, nm) l = Ok (best', nm') ->
  0 <= best -> (nm = None -> best = 0) ->
  0 <= best'
  ∧ (forall m', nm' = Some m' -> nm = Some m' ∨ m' ∈ l)
  ∧ (nm' = None ->
       nm = None ∧ best' = 0
       ∧ Forall (fun m => exists x,
                   (new_game ← copy_and_make_move g m;
                    new_game ← AIPlayer.the_game new_game;
                    fst <$> search new_game d') = Ok x ∧ x < 0) l).
Proof.
  revert best nm. induction l as [|m l IH]; intros best nm.
  - intros [= <- <-] Hbest Hnm. split_and!; [done|auto|]. intros ->. auto.
  - rewrite foldM_cons, search_step_eq.
    destruct (copy_and_make_move g m) as [[c|]|] eqn:Hcopy; step; [|done..].
    destruct (search c d') as [[x nmc]|] eqn:Hchild; step; [|done].
    case_bool_decide as Hx; intros Hloop Hbest Hnm.
    + apply IH in Hloop as (H1 & H2 & H3); [|lia|done].
      split_and!; [done| |].
      * intros m' Hm'. destruct (H2 m' Hm') as [[= <-]|?]; right; [by left|by right].
      * intros Hnone. by destruct (H3 Hnone) as ([=] & _).
    + apply IH in Hloop as (H1 & H2 & H3); [|done..].
      split_and!; [done| |].
      * intros m' Hm'. destruct (H2 m' Hm'); [by left|right; by right].
      * intros Hnone. destruct (H3 Hnone) as (-> & -> & Hall).
        split_and!; [done..|]. constructor; [|done].
        exists x. split; [by rewrite Hcopy; step; rewrite Hchild|].
        specialize (Hnm eq_refl). lia.
Qed.

(** C7, amended.  On a well-formed state [activate_make_move] returns a
    pair.  With no move played yet it is (100, (7,7)).  With a move played,
    depth 0 or an empty candidate list give the static evaluation and no
    move, whether or not the game is over; at a depth above 0 a move, one of
    the candidates, is returned as soon as some candidate's child score is
    not negative. *)
Theorem activate_make_move_move_returned
    (self : AIPlayer.t) (g : GomokuGame) (d : nat) :
  wf g ->
  exists score mv self',
    AIPlayer.activate_make_move self g d = Ok ((score, mv), self')
    ∧ (last_move g = None -> score = 100 ∧ mv = Some (7, 7))
    ∧ (is_Some (last_move g) ->
       d = 0%nat ∨ valid_moves_with_neighbour g 1 = Ok [] ->
       evaluate_game g = Ok score ∧ mv = None)
    ∧ (is_Some (last_move g) ->
       forall d' cands,
         d = S d' -> valid_moves_with_neighbour g 1 = Ok cands ->
         Exists (fun m => exists x, child_score self g d' m = Ok x ∧ 0 <= x) cands ->
         exists m, mv = Some m ∧ m ∈ cands).
Proof.
  intros Hwf. destruct (search_total d g Hwf) as [[score mv] Hsearch].
  unfold AIPlayer.activate_make_move.
  set (p := AIPlayer.set_next_move _ None).
  pose proof (make_move_search d p g) as Hmm. rewrite Hsearch in Hmm.
  destruct (AIPlayer.make_move p g d) as [[score' p']|]; step in Hmm; [|done].
  injection Hmm as -> Hmv. step. rewrite Hmv.
  exists score, mv, p'. split; [done|]. clear Hmv p' p.
  split_and!.
  - intros Hnone.
    destruct d; [rewrite search_O in Hsearch|rewrite search_S in Hsearch];
      rewrite Hnone in Hsearch; by injection Hsearch as <- <-.
  - intros [m Hm] Hcase.
    destruct d as [|d']; [rewrite search_O in Hsearch|rewrite search_S in Hsearch];
      rewrite Hm in Hsearch.
    + destruct (evaluate_game g); step in Hsearch; [|done].
      by injection Hsearch as <- <-.
    + destruct Hcase as [|Hempty]; [done|]. rewrite Hempty in Hsearch.
      destruct (evaluate_game g); step in Hsearch; [|done].
      by injection Hsearch as <- <-.
  - intros [m Hm] d' cands -> Hcands Hex. rewrite search_S in Hsearch.
    rewrite Hm, Hcands in Hsearch.
    destruct (evaluate_game g); step in Hsearch; [|done].
    case_bool_decide as Hlen.
    { destruct cands; [|done]. by apply Exists_nil in Hex. }
    apply search_loop_move in Hsearch as (_ & Hin & Hnone); [|done..].
    destruct mv as [m'|].
    + exists m'. split; [done|]. by destruct (Hin m' eq_refl).
    + destruct (Hnone eq_refl) as (_ & _ & Hall). exfalso.
      apply Exists_exists in Hex as (m' & Hm' & x & Hx & Hpos).
      rewrite Forall_forall in Hall. destruct (Hall m' Hm') as (x' & Hx' & Hneg).
      rewrite child_score_search in Hx. rewrite Hx in Hx'. injection Hx' as ->. lia.
Qed.

Lemma centre_game_wf : wf centre_game.
Proof.
  split.
  - reflexivity.
  - repeat constructor.
  - apply (bool_decide_unpack _). vm_compute. exact I.
  - intros m [= <-]. apply (bool_decide_unpack _). vm_compute. exact I.
Qed.

Lemma activate_make_move_move_returned_witness :
  wf centre_game
  ∧ exists score mv self',
    AIPlayer.activate_make_move player centre_game 1 = Ok ((score, mv), self')
    ∧ (last_move centre_game = None -> score = 100 ∧ mv = Some (7, 7))
    ∧ (is_Some (last_move centre_game) ->
       1%nat = 0%nat ∨ valid_moves_with_neighbour centre_game 1 = Ok [] ->
       evaluate_game centre_game = Ok score ∧ mv = None)
    ∧ (is_Some (last_move centre_game) ->
       forall d' cands,
         1%nat = S d' -> valid_moves_with_neighbour centre_game 1 = Ok cands ->
         Exists (fun m => exists x,
                   child_score player centre_game d' m = Ok x ∧ 0 <= x) cands ->
         exists m, mv = Some m ∧ m ∈ cands).
Proof.
  split; [exact centre_game_wf|].
  exact (activate_make_move_move_returned player centre_game 1 centre_game_wf).
Defined.

(** ** Win detection on concrete games *)

(** C1.  After White's stones on (7,3)..(7,6) and (7,8), White plays (7,7):
    the run through (7,7) along the row is six stones long and no axis has a
    run of exactly five, yet [_five_in_a_row] answers [True] (the four
    stones to the left already bring the count to 5, before the other
    direction is looked at) and [get_winner] reports a win for White. *)
Theorem five_in_a_row_accepts_six :
  after six_moves (fun g => Ok (last_move g, _is_white_active g))
    = Ok (Some (7, 7), false)
  ∧ after six_moves (fun g => Ok (run_through (_board g) 7 7 (0, 1) 1)) = Ok 6
  ∧ after six_moves (fun g => Ok (exactly_five (_board g) 7 7 1)) = Ok false
  ∧ after six_moves (fun g => _five_in_a_row g 7 7 (_is_white_active g)) = Ok true
  ∧ after six_moves get_winner = Ok (Some "White")
  ∧ winners_along new_game (take 10 six_moves) = Ok (replicate 10 None).
Proof. split_and!; vm_compute; reflexivity. Qed.

(** C3.  A game of 225 moves in which nobody has five before the last move
    and the 225th move, White's (0,0), completes a run of exactly five:
    [_five_in_a_row] sees the five, but [get_winner] tests the move count
    first and reports a draw. *)
Theorem get_winner_draw_hides_final_five :
  after full_moves (fun g => Ok (_board g)) = Ok full_grid
  ∧ after full_moves (fun g => Ok (_move_count g, last_move g, _is_white_active g))
    = Ok (225, Some (0, 0), false)
  ∧ winners_along new_game (take 224 full_moves) = Ok (replicate 224 None)
  ∧ run_through full_grid 0 0 (0, 1) 1 = 5
  ∧ exactly_five full_grid 0 0 1 = true
  ∧ after full_moves (fun g => _five_in_a_row g 0 0 (_is_white_active g)) = Ok true
  ∧ after full_moves get_winner = Ok (Some "Draw").
Proof. split_and!; vm_compute; reflexivity. Qed.

(** ** Moves and copies on concrete games *)

(** C4.  A move off the board and a move onto an occupied cell: [make_move]
    returns normally, as it does for a valid move; it raises nothing, the
    state is the one before the call, and the only trace is a printed line. *)
Theorem make_move_invalid_returns_normally :
  make_move new_game (15, 0) = Ok (new_game, [Print_not_valid (15, 0)])
  ∧ after centre_moves (fun g => Ok (cell (_board g) 7 7)) = Ok (Some 1)
  ∧ after centre_moves (fun g => make_move g (7, 7))
    = after centre_moves (fun g => Ok (g, [Print_not_valid (7, 7)])).
Proof. split_and!; vm_compute; reflexivity. Qed.

(** C2.  The copy made of a game with a stone on (7,7) for the move (7,8):
    its valid-move list has 224 entries, all cells but (7,8), and so holds
    the occupied cell (7,7); it is among the copy's candidate moves, and a
    further copy is made for it. *)
Theorem copy_valid_moves_hold_occupied_cell :
  after centre_moves (fun g => on_copy g (7, 8) (fun c =>
      Ok (cell (_board c) 7 7, cell (_board c) 7 8,
          bool_decide ((7, 7) ∈ _valid_moves c), length (_valid_moves c))))
    = Ok (Some 1, Some 2, true, 224%nat)
  ∧ after centre_moves (fun g => on_copy g (7, 8) (fun c =>
      valid_moves_with_neighbour c 1))
    = Ok [(6, 6); (7, 6); (8, 6); (6, 7); (7, 7); (8, 7); (6, 8); (8, 8);
          (6, 9); (7, 9); (8, 9)]
  ∧ after centre_moves (fun g => on_copy g (7, 8) (fun c => on_copy c (7, 7)
      (fun c' => Ok (cell (_board c') 7 7, length (_valid_moves c')))))
    = Ok (Some 1, 224%nat).
Proof. split_and!; vm_compute; reflexivity. Qed.

(** C8.  The copy made of a game with a stone on (7,7) for the move (7,8),
    next to the game itself after that move: same grid, same colour to move,
    same count and last move, but the copy's history is [(7,8)] alone and
    its valid-move list is not the receiver's without (7,8). *)
Theorem copy_differs_from_game_after_move :
  after centre_moves (fun g => on_copy g (7, 8) (fun c =>
      g' ← play g [(7, 8)];
      Ok (bool_decide (_board c = _board g'),
          bool_decide (_is_white_active c = _is_white_active g'),
          bool_decide (_move_count c = _move_count g'),
          bool_decide (last_move c = last_move g'),
          _moves_so_far c, _moves_so_far g',
          length (_valid_moves c), length (_valid_moves g'),
          bool_decide (_valid_moves c = _valid_moves g'))))
    = Ok (true, true, true, true, [(7, 8)], [(7, 7); (7, 8)],
          224%nat, 223%nat, false).
Proof. vm_compute; reflexivity. Qed.

(** ** The searches on concrete games *)

(** C5.  A live game of 224 moves without a winner, White to move, the only
    empty cell and only candidate being (0,1).  The one child score is
    -30000 (the stone breaks Black's 2 0 2 2 on the top row), so the
    maximum over the candidates is -30000; plain minimax at depth 1 returns
    0, the value its running best starts from, and retains no move. *)
Theorem minimax_returns_zero_above_negative_children :
  after crowded_moves (fun g => Ok (_board g)) = Ok crowded_grid
  ∧ after crowded_moves (fun g => Ok (_move_count g, _is_white_active g))
    = Ok (224, true)
  ∧ winners_along new_game crowded_moves = Ok (replicate 224 None)
  ∧ after crowded_moves (fun g => valid_moves_with_neighbour g 1) = Ok [(0, 1)]
  ∧ after crowded_moves (fun g => child_score player g 0 (0, 1)) = Ok (-30000)
  ∧ after crowded_moves (fun g => outcome <$> AIPlayer.make_move player g 1)
    = Ok (0, None).
Proof. split_and!; vm_compute; reflexivity. Qed.

(** C6.  Four stones in a corner, White to move, six candidate moves, no
    winner: at depths 1, 2 and 3 plain minimax returns 77777780 and the
    pruning search returns 0.  On the crowded board, with its single legal
    move, they return 0 and 30000 at depth 1. *)
Theorem minimax_and_pruning_scores_differ :
  after corner_moves (fun g => valid_moves_with_neighbour g 1)
    = Ok [(2, 0); (1, 1); (2, 1); (1, 2); (0, 3); (1, 3)]
  ∧ after corner_moves get_winner = Ok None
  ∧ after corner_moves (fun g =>
      mapM_r (fun d => fst <$> AIPlayer.make_move player g d) [1; 2; 3]%nat)
    = Ok [77777780; 77777780; 77777780]
  ∧ after corner_moves (fun g =>
      mapM_r (fun d => fst <$> AIPlayer.make_move_and_prune
                                 (AIPlayer.__init__ g (Some (Z.of_nat d))) g d
                                 NegInf PosInf) [1; 2; 3]%nat)
    = Ok [Fin 0; Fin 0; Fin 0]
  ∧ after crowded_moves (fun g => Ok (_valid_moves g)) = Ok [(0, 1)]
  ∧ after crowded_moves (fun g => fst <$> AIPlayer.make_move player g 1) = Ok 0
  ∧ after crowded_moves (fun g =>
      fst <$> AIPlayer.make_move_and_prune (AIPlayer.__init__ g (Some 1)) g 1
                                           NegInf PosInf)
    = Ok (Fin 30000).
Proof. split_and!; vm_compute; reflexivity. Qed.

(** C7, as stated, fails.  One stone on the board, nobody has won, and the
    entry point called with depth 0 returns the evaluation 0 and no move. *)
Lemma activate_make_move_depth_zero_no_move :
  after centre_moves get_winner = Ok None
  ∧ after centre_moves (fun g => Ok (_move_count g, last_move g))
    = Ok (1, Some (7, 7))
  ∧ after centre_moves (fun g => fst <$> AIPlayer.activate_make_move player g 0)
    = Ok (0, None).
Proof. split_and!; vm_compute; reflexivity. Qed.

(** ** The live game *)

Lemma board_set_in_eq (b : list (list Z)) (y x v : Z) :
  board_ok b -> 0 <= y <= 14 -> 0 <= x <= 14 ->
  exists row, b !! Z.to_nat y = Some row ∧ length row = 15%nat
    ∧ board_set b y x v = Ok (<[Z.to_nat y := <[Z.to_nat x := v]> row]> b).
Proof.
  intros Hb Hy Hx. destruct (board_ok_row b y Hb Hy) as (row & Hget & Hrow & Hlen).
  destruct Hb as [Hrows Hcols]. exists row. split_and!; [done..|].
  unfold board_set. rewrite Hget. cbn [mbind result_bind].
  rewrite py_setitem_in by lia. cbn [mbind result_bind]. by rewrite py_setitem_in by lia.
Qed.

(** Writing a cell changes that cell and no other. *)
Lemma board_set_cell (b b' : list (list Z)) (y x v : Z) :
  board_ok b -> 0 <= y <= 14 -> 0 <= x <= 14 -> board_set b y x v = Ok b' ->
  forall y' x', cell b' y' x'
                = if bool_decide ((y', x') = (y, x)) then Some v else cell b y' x'.
Proof.
  intros Hb Hy Hx Hset y' x'.
  destruct (board_set_in_eq b y x v Hb Hy Hx) as (row & Hrow & Hlen & Heq).
  rewrite Heq in Hset. injection Hset as <-. destruct Hb as [Hrows Hcols].
  unfold cell. case_bool_decide as Hr.
  2:{ rewrite bool_decide_eq_false_2; [done|]. intros [= -> ->]. by apply Hr. }
  destruct (decide (y' = y)) as [->|Hy'].
  - rewrite list_lookup_insert_eq by lia. rewrite Hrow. cbn [mbind option_bind].
    destruct (decide (x' = x)) as [->|Hx'].
    + rewrite bool_decide_eq_true_2 by done. apply list_lookup_insert_eq. lia.
    + rewrite bool_decide_eq_false_2 by congruence. apply list_lookup_insert_ne. lia.
  - rewrite bool_decide_eq_false_2 by congruence.
    by rewrite list_lookup_insert_ne by lia.
Qed.

Lemma py_remove_NoDup {A : Type} `{EqDecision A} (x : A) (l : list A) :
  NoDup l -> NoDup (py_remove x l) ∧ (forall y, y ∈ py_remove x l <-> y ∈ l ∧ y ≠ x).
Proof.
  induction 1 as [|z l Hz Hl [IH1 IH2]]; simpl.
  - split; [constructor|]. intros y. split; [by intros ?%elem_of_nil|by intros [?%elem_of_nil _]].
  - case_decide as Hxz.
    + subst z. split; [done|]. intros y. rewrite elem_of_cons. split.
      * intros Hy. split; [by right|]. by intros ->.
      * by intros [[->|Hy] Hne].
    + split.
      * constructor; [|done]. rewrite IH2. by intros [? _].
      * intros y. rewrite !elem_of_cons, IH2. split.
        -- intros [->|[Hy Hne]]; [split; [by left|congruence]|split; [by right|done]].
        -- intros [[->|Hy] Hne]; [by left|right; done].
Qed.

Lemma py_remove_length {A : Type} `{EqDecision A} (x : A) (l : list A) :
  x ∈ l -> S (length (py_remove x l)) = length l.
Proof.
  induction l as [|z l IH]; simpl; [by intros ?%elem_of_nil|].
  case_decide; [done|]. intros [->|Hx]%elem_of_cons; [done|]. simpl. by rewrite IH.
Qed.

Lemma new_game_cell (m : move) : in_range m -> cell (_board new_game) m.1 m.2 = Some 0.
Proof.
  intros Hr. apply new_game_valid_moves in Hr. revert m Hr.
  apply Forall_forall, (bool_decide_unpack _). vm_compute. exact I.
Qed.

Lemma new_game_live_inv : live_inv new_game.
Proof.
  split.
  - apply new_game_wf.
  - apply (bool_decide_unpack _). vm_compute. exact I.
  - intros m. rewrite new_game_valid_moves. split; [|by intros [? _]].
    intros Hr. split; [done|]. by apply new_game_cell.
  - reflexivity.
  - reflexivity.
  - reflexivity.
  - intros i m Hi. change (_moves_so_far new_game) with (@nil move) in Hi.
    by rewrite lookup_nil in Hi.
  - intros m Hr Hne. by rewrite new_game_cell in Hne.
  - constructor.
  - reflexivity.
Qed.

Lemma make_move_live_inv (g g' : GomokuGame) (m : move) (out : list output) :
  live_inv g -> make_move g m = Ok (g', out) -> live_inv g'.
Proof.
  intros Hinv Hmove. destruct (decide (m ∈ _valid_moves g)) as [Hin|Hin].
  2:{ rewrite make_move_not_valid in Hmove by done. by injection Hmove as <- <-. }
  pose proof (make_move_wf g g' m out (live_wf g Hinv) Hmove) as Hwf'.
  destruct Hinv as [Hwf Hnd Hvalid Hcount Hturn Hlast Hstones Hocc Hhnd Htotal].
  pose proof Hwf as [Hrows Hcols _ _].
  apply Hvalid in Hin as Hm. destruct Hm as [Hr Hcell].
  destruct (make_move_valid g m) as (b' & Hset & Hb' & Heq);
    [by split|done|done|].
  rewrite Heq in Hmove. injection Hmove as <- <-.
  pose proof (board_set_cell (_board g) b' m.1 m.2 _ (conj Hrows Hcols)
                (proj1 Hr) (proj2 Hr) Hset) as Hcells.
  assert (Hstone : (if _is_white_active g then 1 else 2) ≠ 0)
    by (by destruct (_is_white_active g)).
  assert (Hfresh : m ∉ _moves_so_far g).
  { intros (i & Hi)%list_elem_of_lookup_1. apply Hstones in Hi as [_ Hi].
    rewrite Hcell in Hi. injection Hi. by destruct (Nat.even i). }
  destruct (py_remove_NoDup m (_valid_moves g) Hnd) as [Hnd' Hrem].
  split; cbn [_board _valid_moves _is_white_active _move_count _moves_so_far last_move].
  - done.
  - done.
  - intros m'. rewrite Hrem, Hvalid, Hcells.
    destruct m as [y x], m' as [y' x']. cbn [fst snd] in *.
    case_bool_decide as Heq'; split.
    + intros [_ Hne]. by destruct Hne.
    + intros [_ [=]]. done.
    + intros [[? ?] Hne]. done.
    + intros [? ?]. done.
  - rewrite length_app, Hcount. simpl. lia.
  - rewrite length_app, Hturn. simpl. rewrite Nat.add_1_r, Nat.even_succ.
    by rewrite <- Nat.negb_even.
  - by rewrite last_snoc.
  - intros i m' Hi. apply lookup_app_Some in Hi as [Hi|[Hlen Hi]].
    + destruct (Hstones i m' Hi) as [Hr' Hc']. split; [done|].
      rewrite Hcells. destruct m as [y x], m' as [y' x']. cbn [fst snd] in *.
      rewrite bool_decide_eq_false_2; [done|].
      intros [= -> ->]. apply Hfresh. by eapply list_elem_of_lookup_2.
    + apply list_lookup_singleton_Some in Hi as [Hi <-]. split; [done|].
      rewrite Hcells. destruct m as [y x]. cbn [fst snd].
      rewrite bool_decide_eq_true_2 by done.
      replace i with (length (_moves_so_far g)) by lia.
      rewrite <- Hturn. done.
  - intros m' Hr' Hne. rewrite Hcells in Hne. apply elem_of_app.
    destruct m as [y x], m' as [y' x']. cbn [fst snd] in *.
    case_bool_decide as Heq'.
    + right. injection Heq' as -> ->. by left.
    + left. by apply Hocc.
  - apply NoDup_app. split_and!; [done| |apply NoDup_singleton].
    intros m' Hm' ->%list_elem_of_singleton. done.
  - rewrite length_app. simpl. pose proof (py_remove_length m _ Hin). lia.
Qed.

Lemma reachable_live_inv (g : GomokuGame) : reachable g -> live_inv g.
Proof.
  induction 1 as [|g m g' out _ IH Hmove]; [apply new_game_live_inv|].
  by eapply make_move_live_inv.
Qed.

Lemma centre_game_reachable : reachable centre_game.
Proof.
  apply (reachable_move new_game (7, 7) centre_game [] reachable_new).
  vm_compute. reflexivity.
Qed.

(** X1.  In a live game ([make_move] calls from [GomokuGame()]) the valid
    moves are exactly the empty cells of the board, each listed once: the
    valid moves and the occupied cells are disjoint and together make up the
    225 cells. *)
Theorem reachable_valid_moves_are_empty_cells (g : GomokuGame) :
  reachable g ->
  NoDup (_valid_moves g)
  ∧ (forall m, m ∈ _valid_moves g <-> in_range m ∧ cell (_board g) m.1 m.2 = Some 0)
  ∧ (forall m, m ∈ _moves_so_far g <->
               in_range m ∧ cell (_board g) m.1 m.2 ≠ Some 0)
  ∧ (forall m, in_range m -> m ∈ _valid_moves g ∨ m ∈ _moves_so_far g)
  ∧ (length (_valid_moves g) + length (_moves_so_far g) = 225)%nat.
Proof.
  intros [Hwf Hnd Hvalid Hcount Hturn Hlast Hstones Hocc Hhnd Htotal]%reachable_live_inv.
  split_and!; [done..| | |done].
  - intros m. split.
    + intros (i & Hi)%list_elem_of_lookup_1. destruct (Hstones i m Hi) as [Hr Hc].
      split; [done|]. rewrite Hc. by destruct (Nat.even i).
    + intros [Hr Hne]. by apply Hocc.
  - intros m Hr. destruct (decide (cell (_board g) m.1 m.2 = Some 0)) as [H0|H0].
    + left. by apply Hvalid.
    + right. by apply Hocc.
Qed.

Lemma reachable_valid_moves_are_empty_cells_witness :
  reachable centre_game
  ∧ NoDup (_valid_moves centre_game)
  ∧ (forall m, m ∈ _valid_moves centre_game
               <-> in_range m ∧ cell (_board centre_game) m.1 m.2 = Some 0)
  ∧ (forall m, m ∈ _moves_so_far centre_game <->
               in_range m ∧ cell (_board centre_game) m.1 m.2 ≠ Some 0)
  ∧ (forall m, in_range m -> m ∈ _valid_moves centre_game ∨ m ∈ _moves_so_far centre_game)
  ∧ (length (_valid_moves centre_game) + length (_moves_so_far centre_game) = 225)%nat.
Proof.
  split; [exact centre_game_reachable|].
  exact (reachable_valid_moves_are_empty_cells centre_game centre_game_reachable).
Defined.

(** X2.  In a live game the move count is the length of the history, the
    colours alternate from White on (the stone of the i-th move, counted
    from 0, is White's when i is even and Black's when i is odd), White is
    to move exactly when the count is even, no cell is played twice, and the
    last move is the last entry of the history. *)
Theorem live_history_alternates (g : GomokuGame) :
  reachable g ->
  _move_count g = Z.of_nat (length (_moves_so_far g))
  ∧ _is_white_active g = Nat.even (length (_moves_so_far g))
  ∧ last_move g = last (_moves_so_far g)
  ∧ NoDup (_moves_so_far g)
  ∧ (forall i m, _moves_so_far g !! i = Some m ->
       in_range m ∧ cell (_board g) m.1 m.2 = Some (if Nat.even i then 1 else 2)).
Proof.
  intros [Hwf Hnd Hvalid Hcount Hturn Hlast Hstones Hocc Hhnd Htotal]%reachable_live_inv.
  by split_and!.
Qed.

Lemma live_history_alternates_witness :
  reachable centre_game
  ∧ _move_count centre_game = Z.of_nat (length (_moves_so_far centre_game))
  ∧ _is_white_active centre_game = Nat.even (length (_moves_so_far centre_game))
  ∧ last_move centre_game = last (_moves_so_far centre_game)
  ∧ NoDup (_moves_so_far centre_game)
  ∧ (forall i m, _moves_so_far centre_game !! i = Some m ->
       in_range m
       ∧ cell (_board centre_game) m.1 m.2 = Some (if Nat.even i then 1 else 2)).
Proof.
  split; [exact centre_game_reachable|].
  exact (live_history_alternates centre_game centre_game_reachable).
Defined.

(** X3.  A valid move on a well-formed state: [make_move] returns with
    nothing printed; the cell of the move now holds the stone of the colour
    that was to move (1 for White, 2 for Black) and every other cell is as
    before; the turn passes, the count grows by one, the move is the last
    move and the last entry of the history, and it is no longer valid while
    every other valid move still is. *)
Theorem make_move_applies_valid_move (g : GomokuGame) (m : move) :
  wf g -> NoDup (_valid_moves g) -> m ∈ _valid_moves g ->
  exists g',
    make_move g m = Ok (g', [])
    ∧ cell (_board g') m.1 m.2 = Some (if _is_white_active g then 1 else 2)
    ∧ (forall m', m' ≠ m -> cell (_board g') m'.1 m'.2 = cell (_board g) m'.1 m'.2)
    ∧ _is_white_active g' = negb (_is_white_active g)
    ∧ _move_count g' = _move_count g + 1
    ∧ last_move g' = Some m
    ∧ _moves_so_far g' = _moves_so_far g ++ [m]
    ∧ (forall m', m' ∈ _valid_moves g' <-> m' ∈ _valid_moves g ∧ m' ≠ m)
    ∧ wf g'.
Proof.
  intros Hwf Hnd Hin. pose proof Hwf as [Hrows Hcols Hvalid _].
  assert (Hr : in_range m) by (rewrite Forall_forall in Hvalid; auto).
  destruct (make_move_valid g m) as (b' & Hset & Hb' & Heq); [by split|done..|].
  pose proof (board_set_cell (_board g) b' m.1 m.2 _ (conj Hrows Hcols)
                (proj1 Hr) (proj2 Hr) Hset) as Hcells.
  eexists. split; [exact Heq|].
  cbn [_board _valid_moves _is_white_active _move_count _moves_so_far last_move].
  split_and!; [| |done..| |].
  - rewrite Hcells. destruct m. by rewrite bool_decide_eq_true_2.
  - intros m' Hne. rewrite Hcells. destruct m, m'.
    by rewrite bool_decide_eq_false_2.
  - apply py_remove_NoDup. done.
  - by eapply make_move_wf.
Qed.

Lemma make_move_applies_valid_move_witness :
  wf new_game ∧ NoDup (_valid_moves new_game) ∧ (7, 7) ∈ _valid_moves new_game
  ∧ exists g',
    make_move new_game (7, 7) = Ok (g', [])
    ∧ cell (_board g') 7 7 = Some (if _is_white_active new_game then 1 else 2)
    ∧ (forall m', m' ≠ (7, 7) ->
         cell (_board g') m'.1 m'.2 = cell (_board new_game) m'.1 m'.2)
    ∧ _is_white_active g' = negb (_is_white_active new_game)
    ∧ _move_count g' = _move_count new_game + 1
    ∧ last_move g' = Some (7, 7)
    ∧ _moves_so_far g' = _moves_so_far new_game ++ [(7, 7)]
    ∧ (forall m', m' ∈ _valid_moves g' <-> m' ∈ _valid_moves new_game ∧ m' ≠ (7, 7))
    ∧ wf g'.
Proof.
  assert (Hin : (7, 7) ∈ _valid_moves new_game).
  { apply new_game_valid_moves. unfold in_range. simpl. lia. }
  split; [exact new_game_wf|]. split; [exact (live_valid_nodup _ new_game_live_inv)|].
  split; [exact Hin|].
  exact (make_move_applies_valid_move new_game (7, 7) new_game_wf
           (live_valid_nodup _ new_game_live_inv) Hin).
Defined.

(** ** The win check against the runs on the board *)

Lemma run_from_nonneg (b : list (list Z)) (y x dy dx colour : Z) (fuel : nat) :
  0 <= run_from b y x dy dx colour fuel.
Proof.
  revert y x. induction fuel as [|fuel IH]; intros y x; simpl; [done|].
  case_bool_decide; [|done]. specialize (IH (y + dy) (x + dx)). lia.
Qed.

(** The loop of [_count_direction_5] from step [s] on, [n] steps long,
    standing on the cell [(py, px)] reached by the steps before. *)
Lemma count_steps_run (b : list (list Z)) (y x xd yd want : Z) (n : nat) :
  board_ok b -> -1 <= xd <= 1 -> -1 <= yd <= 1 ->
  forall (s count py px : Z) (fuel : nat),
    py = y + yd * (s - 1) -> px = x + xd * (s - 1) ->
    0 <= py <= 14 -> 0 <= px <= 14 -> (n <= fuel)%nat ->
    count_steps b y x xd yd want (seqZ s (Z.of_nat n)) count
    = Ok (count + Z.min (Z.of_nat n) (run_from b py px yd xd want fuel)).
Proof.
  intros Hb Hxd Hyd. induction n as [|n IH]; intros s count py px fuel Hpy Hpx Hy Hx Hfuel.
  - simpl. pose proof (run_from_nonneg b py px yd xd want fuel). f_equal. lia.
  - rewrite seqZ_cons by lia.
    replace (Z.pred (Z.of_nat (S n))) with (Z.of_nat n) by lia.
    destruct fuel as [|fuel]; [lia|].
    cbn [count_steps run_from].
    replace (x + xd * s) with (px + xd) by lia.
    replace (y + yd * s) with (py + yd) by lia.
    pose proof (run_from_nonneg b (py + yd) (px + xd) yd xd want fuel) as Hnn.
    destruct (decide (0 <= py + yd <= 14 ∧ 0 <= px + xd <= 14)) as [[Hy' Hx']|Hout].
    + rewrite !(bool_decide_eq_false_2 (_ < 0)), !(bool_decide_eq_false_2 (_ > 14)) by lia.
      rewrite !andb_false_r. cbn [orb].
      destruct (board_at_in b (py + yd) (px + xd) Hb Hy' Hx') as (v & -> & Hcell).
      cbn [mbind result_bind]. rewrite Hcell.
      destruct (decide (v = want)) as [->|Hv].
      * rewrite !bool_decide_eq_true_2 by done.
        rewrite (IH (Z.succ s) (count + 1) (py + yd) (px + xd) fuel) by lia.
        f_equal. lia.
      * rewrite !bool_decide_eq_false_2 by congruence. f_equal. lia.
    + assert (Hcell : cell b (py + yd) (px + xd) = None).
      { unfold cell. by rewrite bool_decide_eq_false_2. }
      rewrite Hcell, (bool_decide_eq_false_2 (None = Some want)) by done.
      assert (Hguard :
        bool_decide (xd ≠ 0)
          && (bool_decide (px + xd < 0) || bool_decide (px + xd > 14)) = true
        ∨ bool_decide (yd ≠ 0)
          && (bool_decide (py + yd < 0) || bool_decide (py + yd > 14)) = true).
      { destruct (decide (0 <= px + xd <= 14)) as [Hx'|Hx'].
        - right. rewrite bool_decide_eq_true_2 by lia. cbn [andb].
          apply orb_true_iff. rewrite !bool_decide_eq_true. lia.
        - left. rewrite bool_decide_eq_true_2 by lia. cbn [andb].
          apply orb_true_iff. rewrite !bool_decide_eq_true. lia. }
      destruct Hguard as [->| ->].
      * f_equal. lia.
      * destruct (_ && _); f_equal; lia.
Qed.

(** [_count_direction_5]: the run in the direction, cut off at four. *)
Lemma _count_direction_5_run (g : GomokuGame) (y x xd yd : Z) (white_turn : bool) :
  board_ok (_board g) -> 0 <= y <= 14 -> 0 <= x <= 14 ->
  -1 <= xd <= 1 -> -1 <= yd <= 1 ->
  _count_direction_5 g y x xd yd white_turn
  = Ok (Z.min 4 (run_from (_board g) y x yd xd (if white_turn then 2 else 1) 15)).
Proof.
  intros Hb Hy Hx Hxd Hyd. unfold _count_direction_5, range.
  change (5 - 1) with (Z.of_nat 4).
  rewrite (count_steps_run (_board g) y x xd yd _ 4 Hb Hxd Hyd 1 0 y x 15) by lia.
  done.
Qed.

Lemma Ok_inj {A : Type} (a b : A) : Ok a = Ok b -> a = b.
Proof. by intros [= ->]. Qed.

Lemma anyM_existsb {A : Type} (p : A -> result bool) (f : A -> bool) (l : list A) :
  Forall (fun x => p x = Ok (f x)) l -> anyM p l = Ok (existsb f l).
Proof.
  induction 1 as [|x l Hx _ IH]; [done|].
  cbn [anyM existsb]. rewrite Hx. cbn [mbind result_bind].
  destruct (f x); [done|]. by rewrite IH.
Qed.

Lemma five_on_axis_pair (g : GomokuGame) (y x : Z) (white_turn : bool) (d1 d2 : Z * Z) :
  board_ok (_board g) -> 0 <= y <= 14 -> 0 <= x <= 14 ->
  -1 <= d1.1 <= 1 -> -1 <= d1.2 <= 1 -> -1 <= d2.1 <= 1 -> -1 <= d2.2 <= 1 ->
  five_on_axis g y x white_turn [d1; d2] 1
  = Ok (axis_reported (_board g) y x (if white_turn then 2 else 1) [d1; d2]).
Proof.
  intros Hb Hy Hx H1 H2 H3 H4. destruct d1 as [xd1 yd1], d2 as [xd2 yd2].
  cbn [fst snd] in *. cbn [five_on_axis axis_reported].
  rewrite !_count_direction_5_run by done. cbn [mbind result_bind].
  unfold capped_run. cbn [fst snd].
  generalize (run_from (_board g) y x yd1 xd1 (if white_turn then 2 else 1) 15) as r1.
  generalize (run_from (_board g) y x yd2 xd2 (if white_turn then 2 else 1) 15) as r2.
  intros r2 r1.
  destruct (decide (Z.min 4 r1 = 4)) as [H5|H5].
  - by rewrite !bool_decide_eq_true_2 by lia.
  - rewrite !(bool_decide_eq_false_2 (1 + Z.min 4 r1 = 5)) by lia.
    rewrite !(bool_decide_eq_false_2 (Z.min 4 r1 = 4)) by lia. cbn [orb].
    destruct (decide (Z.min 4 r1 + Z.min 4 r2 = 4)) as [H6|H6].
    + by rewrite !bool_decide_eq_true_2 by lia.
    + by rewrite !bool_decide_eq_false_2 by lia.
Qed.

Lemma five_in_a_row_spec
    (g : GomokuGame) (y x : Z) (white_turn : bool) :
  board_ok (_board g) -> in_range (y, x) ->
  let colour := if white_turn then 2 else 1 in
  _five_in_a_row g y x white_turn
  = Ok (existsb (axis_reported (_board g) y x colour) _DIRECTIONS)
  ∧ (exactly_five (_board g) y x colour = true ->
     _five_in_a_row g y x white_turn = Ok true)
  ∧ (_five_in_a_row g y x white_turn = Ok true ->
     exists axis, axis ∈ axes ∧ 5 <= run_through (_board g) y x axis colour).
Proof.
  intros Hb [Hy Hx] colour. cbn [fst snd] in *.
  assert (Heq : _five_in_a_row g y x white_turn
                = Ok (existsb (axis_reported (_board g) y x colour) _DIRECTIONS)).
  { unfold _five_in_a_row. apply anyM_existsb.
    repeat constructor; apply five_on_axis_pair; cbn [fst snd]; done || lia. }
  split; [done|]. rewrite Heq. clear Heq.
  unfold exactly_five, axes, run_through, _DIRECTIONS, axis_reported, capped_run.
  cbn [existsb fst snd].
  change (- 0) with 0. change (- (1)) with (-1). change (- (-1)) with 1.
  pose proof (run_from_nonneg (_board g) y x 0 1 colour 15).
  pose proof (run_from_nonneg (_board g) y x 0 (-1) colour 15).
  pose proof (run_from_nonneg (_board g) y x 1 0 colour 15).
  pose proof (run_from_nonneg (_board g) y x (-1) 0 colour 15).
  pose proof (run_from_nonneg (_board g) y x 1 1 colour 15).
  pose proof (run_from_nonneg (_board g) y x (-1) (-1) colour 15).
  pose proof (run_from_nonneg (_board g) y x 1 (-1) colour 15).
  pose proof (run_from_nonneg (_board g) y x (-1) 1 colour 15).
  split.
  - intros Hex. f_equal. rewrite !orb_true_iff, !bool_decide_eq_true in *.
    destruct Hex as [?|[?|[?|[?|?]]]];
      [left|right; left|right; right; right; left|right; right; left|done]; lia.
  - intros Hrep%Ok_inj. rewrite !orb_true_iff, !bool_decide_eq_true in Hrep.
    destruct Hrep as [Ha|[Ha|[Ha|[Ha|?]]]]; [| | | |done].
    + exists (0, 1). split; [repeat constructor|]. cbn [fst snd].
      change (- 0) with 0. change (- (1)) with (-1). lia.
    + exists (1, 0). split; [repeat constructor|]. cbn [fst snd].
      change (- 0) with 0. change (- (1)) with (-1). lia.
    + exists (1, -1). split; [repeat constructor|]. cbn [fst snd].
      change (- (-1)) with 1. change (- (1)) with (-1). lia.
    + exists (1, 1). split; [repeat constructor|]. cbn [fst snd].
      change (- (1)) with (-1). lia.
Qed.

(** X4.  On a 15 x 15 grid and a cell on the board [_five_in_a_row]
    returns; it reports an axis when the run in the first direction, cut off
    at four, is four, or the two cut-off runs add up to four.  So a run of
    exactly five through the cell is always reported, and whenever it
    reports there is a run of at least five through the cell (which may be
    longer than five). *)
Theorem five_in_a_row_between_exactly_and_at_least_five
    (g : GomokuGame) (y x : Z) (white_turn : bool) :
  board_ok (_board g) -> in_range (y, x) ->
  let colour := if white_turn then 2 else 1 in
  _five_in_a_row g y x white_turn
  = Ok (existsb (axis_reported (_board g) y x colour) _DIRECTIONS)
  ∧ (exactly_five (_board g) y x colour = true ->
     _five_in_a_row g y x white_turn = Ok true)
  ∧ (_five_in_a_row g y x white_turn = Ok true ->
     exists axis, axis ∈ axes ∧ 5 <= run_through (_board g) y x axis colour).
Proof. apply five_in_a_row_spec. Qed.


Lemma centre_cell_in_range : in_range (7, 7).
Proof. unfold in_range. simpl. lia. Qed.

Lemma five_in_a_row_between_exactly_and_at_least_five_witness :
  board_ok (_board centre_game) ∧ in_range (7, 7)
  ∧ _five_in_a_row centre_game 7 7 false
    = Ok (existsb (axis_reported (_board centre_game) 7 7 1) _DIRECTIONS)
  ∧ (exactly_five (_board centre_game) 7 7 1 = true ->
     _five_in_a_row centre_game 7 7 false = Ok true)
  ∧ (_five_in_a_row centre_game 7 7 false = Ok true ->
     exists axis, axis ∈ axes ∧ 5 <= run_through (_board centre_game) 7 7 axis 1).
Proof.
  split; [exact centre_game_board_ok|]. split; [exact centre_cell_in_range|].
  exact (five_in_a_row_between_exactly_and_at_least_five centre_game 7 7 false
           centre_game_board_ok centre_cell_in_range).
Defined.

(** X5.  [_count_direction_5] never raises on a 15 x 15 grid, also next to
    the edge, and counts the run of the wanted colour in the direction up to
    four stones: it returns the length of the run, or 4 when the run is
    longer. *)
Theorem count_direction_5_capped_run
    (g : GomokuGame) (y x xd yd : Z) (white_turn : bool) :
  board_ok (_board g) -> in_range (y, x) -> -1 <= xd <= 1 -> -1 <= yd <= 1 ->
  exists c,
    _count_direction_5 g y x xd yd white_turn = Ok c
    ∧ 0 <= c <= 4
    ∧ c = Z.min 4 (run_from (_board g) y x yd xd (if white_turn then 2 else 1) 15).
Proof.
  intros Hb [Hy Hx] Hxd Hyd. eexists. split; [by apply _count_direction_5_run|].
  split; [|done].
  pose proof (run_from_nonneg (_board g) y x yd xd (if white_turn then 2 else 1) 15).
  lia.
Qed.

Lemma count_direction_5_capped_run_witness :
  board_ok (_board centre_game) ∧ in_range (7, 7) ∧ -1 <= 1 <= 1 ∧ -1 <= 0 <= 1
  ∧ exists c,
    _count_direction_5 centre_game 7 7 1 0 false = Ok c
    ∧ 0 <= c <= 4
    ∧ c = Z.min 4 (run_from (_board centre_game) 7 7 0 1 1 15).
Proof.
  split; [exact centre_game_board_ok|]. split; [exact centre_cell_in_range|].
  split; [lia|]. split; [lia|].
  apply (count_direction_5_capped_run centre_game 7 7 1 0 false
           centre_game_board_ok centre_cell_in_range); lia.
Defined.

(** ** The winner of a live game *)

(** X6.  In a live game [get_winner] never raises.  It is [None] before the
    first move and ['Draw'] from the 225th move on, and only then.  A
    reported ['White'] (['Black']) means that the last stone played is
    White's (Black's) and lies in a run of at least five of that colour; and
    before move 225 an exact five of the mover through the last move is
    always reported as the mover's win. *)
Theorem get_winner_cases (g : GomokuGame) :
  reachable g ->
  exists w,
    get_winner g = Ok w
    ∧ (_move_count g = 0 -> w = None)
    ∧ (225 <= _move_count g <-> w = Some "Draw")
    ∧ (forall name, w = Some name -> name ≠ "Draw" ->
         exists m stone axis,
           last_move g = Some m
           ∧ cell (_board g) m.1 m.2 = Some stone
           ∧ (name = "White" ∧ stone = 1 ∨ name = "Black" ∧ stone = 2)
           ∧ axis ∈ axes
           ∧ 5 <= run_through (_board g) m.1 m.2 axis stone)
    ∧ (forall m stone,
         last_move g = Some m -> _move_count g < 225 ->
         cell (_board g) m.1 m.2 = Some stone ->
         exactly_five (_board g) m.1 m.2 stone = true ->
         w = Some (if bool_decide (stone = 1) then "White" else "Black")).
Proof.
  intros Hreach. pose proof (reachable_live_inv g Hreach)
    as [Hwf Hnd Hvalid Hcount Hturn Hlast Hstones Hocc Hhnd Htotal].
  pose proof Hwf as [Hrows Hcols _ Hlastr].
  unfold get_winner, _MAX_MOVES. change (15 * 15) with 225.
  case_bool_decide as H0.
  { exists None. split_and!; [done|done| |done|].
    - split; [lia|done].
    - intros m stone Hm _ _ _. exfalso.
      rewrite Hcount in H0. destruct (_moves_so_far g) eqn:Hh; [|simpl in H0; lia].
      rewrite Hm in Hlast. done. }
  destruct (last_move g) as [m|] eqn:Hm.
  2:{ exfalso. symmetry in Hlast. apply last_None in Hlast.
      rewrite Hlast in Hcount. simpl in Hcount. lia. }
  destruct m as [y x].
  assert (Hr : in_range (y, x)) by (by apply Hlastr).
  (* the stone of the last move *)
  pose proof Hlast as Hidx. rewrite last_lookup in Hidx. symmetry in Hidx.
  destruct (Hstones _ _ Hidx) as [_ Hstone]. cbn [fst snd] in Hstone.
  assert (Hlen : (length (_moves_so_far g) ≠ 0)%nat) by lia.
  assert (Hwt : _is_white_active g = negb (Nat.even (pred (length (_moves_so_far g))))).
  { rewrite Hturn. destruct (length (_moves_so_far g)) as [|n]; [done|].
    cbn [pred]. by rewrite Nat.even_succ, <- Nat.negb_even. }
  set (i := pred (length (_moves_so_far g))) in *.
  case_bool_decide as Hfull.
  { exists (Some "Draw"). split_and!.
    - done.
    - intros ?. lia.
    - split; [done|lia].
    - intros name [= <-] Hn. done.
    - intros ? ? _ ?. lia. }
  destruct (five_in_a_row_spec g y x (_is_white_active g) (conj Hrows Hcols) Hr)
    as (Hfive & Hexact & Hrun).
  destruct (_five_in_a_row g y x (_is_white_active g)) as [five|e] eqn:Hf; [|done].
  cbn [mbind result_bind].
  assert (Hcolour : (if _is_white_active g then 2 else 1)
                    = if Nat.even i then 1 else 2).
  { rewrite Hwt. by destruct (Nat.even i). }
  rewrite Hcolour in Hexact, Hrun.
  destruct five.
  - eexists. split; [done|]. split_and!; [done| |..].
    + split; [lia|]. by destruct (_is_white_active g).
    + intros name [= <-] _. destruct (Hrun eq_refl) as (axis & Hax & Hge).
      exists (y, x), (if Nat.even i then 1 else 2), axis. cbn [fst snd].
      split_and!; [done|done| |done|done].
      rewrite Hwt. destruct (Nat.even i); cbn [negb]; [by left|by right].
    + intros m stone [= <-] _ Hc _. cbn [fst snd] in Hc. rewrite Hstone in Hc.
      injection Hc as <-. rewrite Hwt. by destruct (Nat.even i).
  - exists None. split_and!; [done|done| |done|].
    + split; [lia|done].
    + intros m stone [= <-] _ Hc Hex. cbn [fst snd] in Hc, Hex. rewrite Hstone in Hc.
      injection Hc as <-. by specialize (Hexact Hex).
Qed.

Lemma get_winner_cases_witness :
  reachable centre_game
  ∧ exists w,
    get_winner centre_game = Ok w
    ∧ (_move_count centre_game = 0 -> w = None)
    ∧ (225 <= _move_count centre_game <-> w = Some "Draw")
    ∧ (forall name, w = Some name -> name ≠ "Draw" ->
         exists m stone axis,
           last_move centre_game = Some m
           ∧ cell (_board centre_game) m.1 m.2 = Some stone
           ∧ (name = "White" ∧ stone = 1 ∨ name = "Black" ∧ stone = 2)
           ∧ axis ∈ axes
           ∧ 5 <= run_through (_board centre_game) m.1 m.2 axis stone)
    ∧ (forall m stone,
         last_move centre_game = Some m -> _move_count centre_game < 225 ->
         cell (_board centre_game) m.1 m.2 = Some stone ->
         exactly_five (_board centre_game) m.1 m.2 stone = true ->
         w = Some (if bool_decide (stone = 1) then "White" else "Black")).
Proof.
  split; [exact centre_game_reachable|].
  exact (get_winner_cases centre_game centre_game_reachable).
Defined.

(** ** Candidate moves *)

Lemma filterM_r_spec {A : Type} (p : A -> result bool) (P : A -> Prop) (l : list A) :
  Forall (fun x => exists b, p x = Ok b ∧ (b = true <-> P x)) l ->
  exists l', filterM_r p l = Ok l' ∧ sublist l' l
             ∧ (forall x, x ∈ l' <-> x ∈ l ∧ P x).
Proof.
  induction 1 as [|x l (b & Hp & Hb) _ (l' & IH & Hsub & Hin)].
  - exists []. split_and!; [done|done|]. intros x.
    split; [by intros ?%elem_of_nil|by intros [?%elem_of_nil _] ].
  - cbn [filterM_r]. rewrite Hp, IH. cbn [mbind result_bind].
    destruct b.
    + eexists. split_and!; [done|by apply sublist_skip| ].
      intros z. rewrite !elem_of_cons, Hin. split.
      * intros [->|[? ?] ]; [split; [by left|by apply Hb]|split; [by right|done] ].
      * intros [ [->|?] ?]; [by left|by right].
    + eexists. split_and!; [done|by apply sublist_cons| ].
      intros z. rewrite elem_of_cons, Hin. split.
      * intros [? ?]. split; [by right|done].
      * intros [ [->|?] HP]; [|done]. apply Hb in HP. done.
Qed.

Lemma anyM_spec {A : Type} (p : A -> result bool) (P : A -> Prop) (l : list A) :
  Forall (fun x => exists b, p x = Ok b ∧ (b = true <-> P x)) l ->
  exists b, anyM p l = Ok b ∧ (b = true <-> exists x, x ∈ l ∧ P x).
Proof.
  induction 1 as [|x l (b & Hp & Hb) _ (b' & IH & Hb')].
  - exists false. split; [done|]. split; [done|]. intros (x & Hx & _).
    by apply elem_of_nil in Hx.
  - cbn [anyM]. rewrite Hp. cbn [mbind result_bind]. destruct b.
    + exists true. split; [done|]. split; [|done]. intros _. exists x.
      split; [by left|by apply Hb].
    + exists b'. split; [done|]. rewrite Hb'. split.
      * intros (z & Hz & HP). exists z. split; [by right|done].
      * intros (z & [->|Hz]%elem_of_cons & HP); [|by exists z].
        apply Hb in HP. done.
Qed.

Lemma _check_neighbour_spec (g : GomokuGame) (m : move) (radius : Z) :
  board_ok (_board g) ->
  exists b, _check_neighbour g m radius = Ok b
            ∧ (b = true <-> near_stone (_board g) m radius).
Proof.
  intros Hb. unfold _check_neighbour.
  destruct (anyM_spec
    (fun y => anyM (fun x =>
        if bool_decide (0 <= y <= 14) && bool_decide (0 <= x <= 14)
        then v ← board_at (_board g) y x; Ok (bool_decide (v ≠ 0))
        else Ok false) (range (m.2 - radius) (m.2 + radius + 1)))
    (fun y => exists x v, m.2 - radius <= x <= m.2 + radius
                          ∧ cell (_board g) y x = Some v ∧ v ≠ 0)
    (range (m.1 - radius) (m.1 + radius + 1))) as (b & Hany & Hspec).
  { apply Forall_forall. intros y _.
    destruct (anyM_spec
      (fun x => if bool_decide (0 <= y <= 14) && bool_decide (0 <= x <= 14)
                then v ← board_at (_board g) y x; Ok (bool_decide (v ≠ 0))
                else Ok false)
      (fun x => exists v, cell (_board g) y x = Some v ∧ v ≠ 0)
      (range (m.2 - radius) (m.2 + radius + 1))) as (b & Hany & Hspec).
    { apply Forall_forall. intros x _.
      destruct (decide (0 <= y <= 14)) as [Hy|Hy];
        [destruct (decide (0 <= x <= 14)) as [Hx|Hx]|].
      - rewrite !bool_decide_eq_true_2 by done. cbn [andb].
        destruct (board_at_in (_board g) y x Hb Hy Hx) as (v & -> & Hc).
        cbn [mbind result_bind]. eexists. split; [done|].
        rewrite bool_decide_eq_true, Hc. split; [by exists v|].
        by intros (v' & [= <-] & ?).
      - rewrite (bool_decide_eq_false_2 (0 <= x <= 14)) by done.
        rewrite andb_false_r. exists false. split; [done|]. split; [done|].
        intros (v & Hc & _). unfold cell in Hc.
        rewrite bool_decide_eq_false_2 in Hc by (intros [? ?]; done). done.
      - rewrite (bool_decide_eq_false_2 (0 <= y <= 14)) by done. cbn [andb].
        exists false. split; [done|]. split; [done|].
        intros (v & Hc & _). unfold cell in Hc.
        rewrite bool_decide_eq_false_2 in Hc by (intros [? ?]; done). done. }
    exists b. split; [done|]. rewrite Hspec. split.
    - intros (x & Hx%range_elem & v & ?). exists x, v. split; [lia|done].
    - intros (x & v & ? & ?). exists x. split; [apply range_elem; lia|by exists v]. }
  exists b. split; [done|]. rewrite Hspec. unfold near_stone. split.
  - intros (y & Hy%range_elem & x & v & ? & ?). exists y, x, v. split; [lia|done].
  - intros (y & x & v & ? & ? & ?). exists y. split; [apply range_elem; lia|].
    by exists x, v.
Qed.

Lemma valid_moves_with_neighbour_spec (g : GomokuGame) (radius : Z) :
  board_ok (_board g) ->
  exists l, valid_moves_with_neighbour g radius = Ok l
            ∧ sublist l (_valid_moves g)
            ∧ (forall m, m ∈ l <-> m ∈ _valid_moves g ∧ near_stone (_board g) m radius).
Proof.
  intros Hb. unfold valid_moves_with_neighbour.
  apply filterM_r_spec, Forall_forall. intros m _. by apply _check_neighbour_spec.
Qed.

(** X7.  On a 15 x 15 grid [valid_moves_with_neighbour] never raises: it
    returns the valid moves, in their order, that have a stone within
    [radius] rows and columns (the stone on the cell itself counts).  There
    is no candidate on a board without stones, nor with a negative
    radius. *)
Theorem valid_moves_with_neighbour_filters (g : GomokuGame) (radius : Z) :
  board_ok (_board g) ->
  exists l, valid_moves_with_neighbour g radius = Ok l
            ∧ sublist l (_valid_moves g)
            ∧ (forall m, m ∈ l <-> m ∈ _valid_moves g ∧ near_stone (_board g) m radius)
            ∧ ((forall y x v, cell (_board g) y x = Some v -> v = 0) -> l = [])
            ∧ (radius < 0 -> l = []).
Proof.
  intros Hb. destruct (valid_moves_with_neighbour_spec g radius Hb)
    as (l & Hl & Hsub & Hin).
  exists l. split_and!; [done..| |].
  - intros Hempty. apply elem_of_nil_inv. intros m (_ & y & x & v & _ & _ & Hc & Hv)%Hin.
    by apply Hv, (Hempty y x).
  - intros Hneg. apply elem_of_nil_inv. intros m (_ & y & x & v & Hy & _)%Hin. lia.
Qed.

Lemma valid_moves_with_neighbour_filters_witness :
  board_ok (_board centre_game)
  ∧ exists l, valid_moves_with_neighbour centre_game 1 = Ok l
      ∧ sublist l (_valid_moves centre_game)
      ∧ (forall m, m ∈ l <-> m ∈ _valid_moves centre_game
                             ∧ near_stone (_board centre_game) m 1)
      ∧ ((forall y x v, cell (_board centre_game) y x = Some v -> v = 0) -> l = [])
      ∧ (1 < 0 -> l = []).
Proof.
  split; [exact centre_game_board_ok|].
  exact (valid_moves_with_neighbour_filters centre_game 1 centre_game_board_ok).
Defined.

(** ** The plain minimax search *)

Lemma foldl_max_below (best : Z) (xs : list Z) :
  Forall (fun x => x < best) xs -> foldl Z.max best xs = best.
Proof.
  induction 1 as [|x xs Hx _ IH]; [done|].
  cbn [foldl]. by rewrite Z.max_l by lia.
Qed.

Lemma search_loop_max (g : GomokuGame) (d' : nat) (cands : list move) (xs : list Z) :
  Forall2 (fun m x => (new_game ← copy_and_make_move g m;
                       new_game ← AIPlayer.the_game new_game;
                       fst <$> search new_game d') = Ok x) cands xs ->
  forall best nm,
  exists nm',
    foldM (search_step g d') (best, nm) cands = Ok (foldl Z.max best xs, nm')
    ∧ ((nm' = nm ∧ Forall (fun x => x < best) xs)
       ∨ exists i m,
           cands !! i = Some m ∧ xs !! i = Some (foldl Z.max best xs)
           ∧ nm' = Some m
           ∧ forall j x', (i < j)%nat -> xs !! j = Some x' ->
                          x' < foldl Z.max best xs).
Proof.
  induction 1 as [|m x cands xs Hm _ IH]; intros best nm.
  - exists nm. split; [done|]. left. by split.
  - rewrite foldM_cons, search_step_eq.
    apply bind_Ok in Hm as (oc & -> & Hm). cbn [mbind result_bind].
    apply bind_Ok in Hm as (c & -> & Hm). cbn [mbind result_bind].
    apply fmap_Ok in Hm as ([x0 mv] & -> & ->). cbn [mbind result_bind fst].
    cbn [foldl]. case_bool_decide as Hge; cbn [mbind result_bind].
    + rewrite Z.max_r by lia.
      destruct (IH x0 (Some m)) as (nm' & -> & [ [-> Hall]|(i & m' & Hi & Hx & -> & Hlater)]).
      * exists (Some m). split; [done|]. right. exists 0%nat, m.
        rewrite (foldl_max_below _ _ Hall).
        split_and!; [done..|]. intros [|j] x' Hj Hx'; [lia|].
        cbn in Hx'. by apply (Forall_lookup_1 _ _ _ _ Hall Hx').
      * exists (Some m'). split; [done|]. right. exists (S i), m'.
        split_and!; [done..|]. intros [|j] x' Hj Hx'; [lia|].
        cbn in Hx'. apply (Hlater j); [lia|done].
    + rewrite Z.max_l by lia.
      destruct (IH best nm) as (nm' & -> & [ [-> Hall]|(i & m' & Hi & Hx & -> & Hlater)]).
      * exists nm. split; [done|]. left. split; [done|].
        constructor; [lia|done].
      * exists (Some m'). split; [done|]. right. exists (S i), m'.
        split_and!; [done..|]. intros [|j] x' Hj Hx'; [lia|].
        cbn in Hx'. apply (Hlater j); [lia|done].
Qed.

(** X8.  [AIPlayer.make_move] above depth 0, on a position with a last move
    and at least one candidate: the returned score is the maximum of 0 and
    the candidates' scores one level down, and the move left in
    [_next_move] is the last candidate whose score equals it; no move is
    left exactly when every candidate's score is negative. *)
Theorem minimax_score_is_maximum_with_zero
    (self : AIPlayer.t) (g : GomokuGame) (d' : nat)
    (cands : list move) (xs : list Z) :
  wf g -> is_Some (last_move g) ->
  valid_moves_with_neighbour g 1 = Ok cands -> cands ≠ [] ->
  Forall2 (fun m x => child_score self g d' m = Ok x) cands xs ->
  exists self',
    AIPlayer.make_move self g (S d') = Ok (foldl Z.max 0 xs, self')
    ∧ ((AIPlayer._next_move self' = None ∧ Forall (fun x => x < 0) xs)
       ∨ exists i m,
           cands !! i = Some m ∧ xs !! i = Some (foldl Z.max 0 xs)
           ∧ AIPlayer._next_move self' = Some m
           ∧ forall j x', (i < j)%nat -> xs !! j = Some x' ->
                          x' < foldl Z.max 0 xs).
Proof.
  intros Hwf [lm Hlm] Hcands Hne Hxs.
  pose proof (make_move_search (S d') self g) as Hs.
  rewrite search_S, Hlm in Hs.
  destruct (evaluate_game_total g lm) as [s Hev];
    [split; apply Hwf|done|by apply Hwf|].
  rewrite Hev, Hcands in Hs. cbn [mbind result_bind] in Hs.
  rewrite bool_decide_eq_false_2 in Hs by (by destruct cands).
  assert (Hxs' : Forall2 (fun m x => (new_game ← copy_and_make_move g m;
                                      new_game ← AIPlayer.the_game new_game;
                                      fst <$> search new_game d') = Ok x) cands xs).
  { eapply Forall2_impl; [exact Hxs|]. intros m x Hm. cbn beta in Hm.
    by rewrite child_score_search in Hm. }
  destruct (search_loop_max g d' cands xs Hxs' 0 None) as (nm' & Hloop & Hnm).
  rewrite Hloop in Hs. apply fmap_Ok in Hs as ([x p] & Hmk & Hout).
  unfold outcome in Hout. cbn [fst snd] in Hout. injection Hout as <- ->.
  exists p. split; [done|].
  destruct Hnm as [ [Hn Hall]|(i & m & ? & ? & Hn & ?)]; [left|right]; [done|].
  by exists i, m.
Qed.

Lemma minimax_score_is_maximum_with_zero_witness :
  wf centre_game ∧ is_Some (last_move centre_game)
  ∧ exists self',
    AIPlayer.make_move player centre_game 1
    = Ok (foldl Z.max 0 [0; 0; 0; 0; 0; 0; 0; 0], self')
    ∧ AIPlayer._next_move self' = Some (8, 8).
Proof.
  split; [exact centre_game_wf|]. split; [by eexists|].
  destruct (minimax_score_is_maximum_with_zero player centre_game 0
              [(6, 6); (7, 6); (8, 6); (6, 7); (8, 7); (6, 8); (7, 8); (8, 8)]
              [0; 0; 0; 0; 0; 0; 0; 0] centre_game_wf)
    as (self' & Hmk & Hnm).
  - by eexists.
  - vm_compute. reflexivity.
  - done.
  - repeat (constructor; [vm_compute; reflexivity|]). constructor.
  - exists self'. split; [exact Hmk|].
    destruct Hnm as [ [_ Hall]|(i & m & Hi & Hx & Hn & Hlater)].
    + apply Forall_cons in Hall as [? _]. lia.
    + rewrite Hn. f_equal.
      destruct (decide (i = 7%nat)) as [->|Hi7]; [by injection Hi|].
      exfalso. apply (Z.lt_irrefl 0). apply (Hlater 7%nat 0); [|done].
      apply lookup_lt_Some in Hi. cbn in Hi. lia.
Defined.

(** ** The move handed to [make_move] by the game loop *)

Lemma live_centre_is_valid (g : GomokuGame) :
  live_inv g -> last_move g = None -> (7, 7) ∈ _valid_moves g.
Proof.
  intros [Hwf Hnd Hvalid Hcount Hturn Hlast Hstones Hocc Hhnd Htotal] Hnone.
  rewrite Hnone in Hlast. symmetry in Hlast. apply last_None in Hlast.
  apply Hvalid. split; [exact centre_cell_in_range|].
  destruct (decide (cell (_board g) (7, 7).1 (7, 7).2 = Some 0)) as [|Hne]; [done|].
  apply (Hocc (7, 7) centre_cell_in_range) in Hne. rewrite Hlast in Hne.
  by apply elem_of_nil in Hne.
Qed.

(** X9.  In a live game every move that [activate_make_move] returns is a
    valid move: the centre on the empty board, else a candidate with a stone
    next to it.  [make_move] therefore applies it, without a message, and
    the game goes on from the state with that last move. *)
Theorem activate_make_move_returns_valid_move
    (self self' : AIPlayer.t) (g : GomokuGame) (d : nat) (score : Z) (mv : move) :
  reachable g ->
  AIPlayer.activate_make_move self g d = Ok ((score, Some mv), self') ->
  mv ∈ _valid_moves g
  ∧ (last_move g = None -> mv = (7, 7))
  ∧ (is_Some (last_move g) -> d ≠ 0%nat ∧ near_stone (_board g) mv 1)
  ∧ exists g', make_move g mv = Ok (g', []) ∧ last_move g' = Some mv
               ∧ reachable g'.
Proof.
  intros Hreach Hact.
  pose proof (reachable_live_inv g Hreach) as Hlive.
  pose proof (live_wf g Hlive) as Hwf.
  assert (Hbo : board_ok (_board g)) by (split; apply Hwf).
  unfold AIPlayer.activate_make_move in Hact.
  apply bind_Ok in Hact as ([s p] & Hmk & Hret). apply Ok_inj in Hret.
  injection Hret as -> Hnm ->.
  pose proof (make_move_search d
    (AIPlayer.set_next_move (AIPlayer.set_depth self (Some (Z.of_nat d))) None) g)
    as Hs.
  rewrite Hmk in Hs. cbn [fmap result_fmap] in Hs. unfold outcome in Hs.
  cbn [fst snd] in Hs. rewrite Hnm in Hs. symmetry in Hs.
  assert (Hmv : mv ∈ _valid_moves g
                ∧ (last_move g = None -> mv = (7, 7))
                ∧ (is_Some (last_move g) -> d ≠ 0%nat ∧ near_stone (_board g) mv 1)).
  { destruct d as [|d'].
    - rewrite search_O in Hs. destruct (last_move g) as [lm|] eqn:Hlm.
      + apply bind_Ok in Hs as (? & _ & [=]).
      + apply Ok_inj in Hs. injection Hs as _ <-.
        split_and!; [by apply live_centre_is_valid|done|by intros [? ?] ].
    - rewrite search_S in Hs. destruct (last_move g) as [lm|] eqn:Hlm.
      + apply bind_Ok in Hs as (ev & _ & Hs).
        destruct (valid_moves_with_neighbour_spec g 1 Hbo) as (l & Hl & _ & Hin).
        rewrite Hl in Hs. cbn [mbind result_bind] in Hs.
        case_bool_decide; [by apply Ok_inj in Hs|].
        destruct (search_loop_move g d' l 0 None score (Some mv) Hs)
          as (_ & Hfrom & _); [lia|done|].
        destruct (Hfrom mv eq_refl) as [ [=]|Hmv]. apply Hin in Hmv as [? ?].
        split_and!; [done|done|by intros _].
      + apply Ok_inj in Hs. injection Hs as _ <-.
        split_and!; [by apply live_centre_is_valid|done|by intros [? ?] ]. }
  destruct Hmv as (Hvalid & Hcentre & Hnear). split_and!; [done..|].
  assert (Hr : in_range mv).
  { pose proof (wf_valid g Hwf) as Hall. by apply (proj1 (Forall_forall _ _) Hall). }
  destruct (make_move_valid g mv Hbo Hr Hvalid) as (b' & _ & _ & Hmake).
  eexists. split_and!; [exact Hmake|done|].
  by apply (reachable_move g mv _ [] Hreach).
Qed.

Lemma activate_make_move_returns_valid_move_witness :
  reachable centre_game
  ∧ (8, 8) ∈ _valid_moves centre_game
  ∧ near_stone (_board centre_game) (8, 8) 1
  ∧ exists g', make_move centre_game (8, 8) = Ok (g', [])
               ∧ last_move g' = Some (8, 8) ∧ reachable g'.
Proof.
  split; [exact centre_game_reachable|].
  destruct (activate_make_move_returns_valid_move
              player
              (AIPlayer.mk new_game (Some (8, 8)) (Some 1))
              centre_game 1 0 (8, 8) centre_game_reachable)
    as (Hv & _ & Hn & Hg).
  - vm_compute. reflexivity.
  - split_and!; [exact Hv| |exact Hg]. apply Hn. by eexists.
Defined.

(** ** Objects and references *)

Lemma heap_view_inv (σ : Heap.store) (self : Heap.loc) (g : GomokuGame) :
  Heap.view σ self = Some g ->
  exists o b,
    Heap.games σ !! self = Some o ∧ Heap.boards σ !! Heap.o_board o = Some b
    ∧ g = {| _board := b;
             _valid_moves := Heap.o_valid_moves o;
             _is_white_active := Heap.o_is_white_active o;
             _move_count := Heap.o_move_count o;
             _moves_so_far := Heap.o_moves_so_far o;
             last_move := Heap.o_last_move o;
             _width := Heap.o_width o;
             _height := Heap.o_height o |}.
Proof.
  unfold Heap.view. intros Hv.
  destruct (Heap.games σ !! self) as [o|] eqn:Ho; [|done].
  cbn [mbind option_bind] in Hv.
  destruct (Heap.boards σ !! Heap.o_board o) as [b|] eqn:Hb; [|done].
  cbn [mbind option_bind] in Hv. injection Hv as <-. by exists o, b.
Qed.

Lemma heap_view_intro (σ : Heap.store) (self : Heap.loc) (o : Heap.obj)
    (b : list (list Z)) :
  Heap.games σ !! self = Some o -> Heap.boards σ !! Heap.o_board o = Some b ->
  Heap.view σ self
  = Some {| _board := b;
            _valid_moves := Heap.o_valid_moves o;
            _is_white_active := Heap.o_is_white_active o;
            _move_count := Heap.o_move_count o;
            _moves_so_far := Heap.o_moves_so_far o;
            last_move := Heap.o_last_move o;
            _width := Heap.o_width o;
            _height := Heap.o_height o |}.
Proof.
  unfold Heap.view. intros Ho Hb. rewrite Ho. cbn [mbind option_bind].
  by rewrite Hb.
Qed.

Lemma heap_make_move_spec
    (σ : Heap.store) (self : Heap.loc) (m : move) (g : GomokuGame) :
  Heap.view σ self = Some g ->
  exists o r σ',
    Heap.games σ !! self = Some o
    ∧ Heap.make_move self m σ = Some (r, σ')
    ∧ match make_move g m with
      | Ok (g', out) => r = Ok out ∧ Heap.view σ' self = Some g'
      | Raise e => r = Raise e ∧ σ' = σ
      end
    ∧ (forall l, l ≠ self -> Heap.games σ' !! l = Heap.games σ !! l)
    ∧ (forall l, l ≠ Heap.o_board o -> Heap.boards σ' !! l = Heap.boards σ !! l)
    ∧ (exists o', Heap.games σ' !! self = Some o'
                  ∧ Heap.o_board o' = Heap.o_board o).
Proof.
  intros Hv. pose proof Hv as (o & b & Ho & Hb & ->)%heap_view_inv.
  exists o. unfold Heap.make_move, make_move. rewrite Ho.
  cbn [mbind option_bind _valid_moves]. case_bool_decide as Hin.
  { eexists _, _. split_and!; try done; by exists o. }
  unfold Heap._board_after_move, _board_after_move. rewrite Ho.
  cbn [mbind option_bind]. rewrite Hb. cbn [mbind option_bind _is_white_active _board].
  assert (Heq : (if Heap.o_is_white_active o
                 then board_set b m.1 m.2 1 else board_set b m.1 m.2 2)
                = board_set b m.1 m.2 (if Heap.o_is_white_active o then 1 else 2))
    by (by destruct (Heap.o_is_white_active o)).
  rewrite Heq. clear Heq.
  destruct (board_set b m.1 m.2 (if Heap.o_is_white_active o then 1 else 2))
    as [b'|e] eqn:Hset; cbn [mbind option_bind result_bind].
  - eexists _, _. split_and!; [done|done|done| | | |].
    + erewrite heap_view_intro;
        [|cbn [Heap.games]; apply lookup_insert_eq
         |cbn [Heap.boards Heap.o_board]; apply lookup_insert_eq].
      done.
    + intros l Hl. cbn [Heap.games]. by rewrite lookup_insert_ne.
    + intros l Hl. cbn [Heap.boards]. by rewrite lookup_insert_ne.
    + eexists. cbn [Heap.games]. split; [apply lookup_insert_eq|done].
  - eexists _, _. split_and!; try done; by exists o.
Qed.

Lemma heap_init_spec (σ : Heap.store) (board : Heap.loc) (b : list (list Z))
    (white_active : bool) (move_count : Z) :
  Heap.boards σ !! board = Some b ->
  exists c σ',
    Heap.__init__ (Some board) white_active move_count 15 15 σ = Some (c, σ')
    ∧ Heap.view σ' c = Some (__init__ (Some b) white_active move_count 15 15)
    ∧ Heap.games σ !! c = None
    ∧ (forall l, l ≠ c -> Heap.games σ' !! l = Heap.games σ !! l)
    ∧ (forall l, is_Some (Heap.boards σ !! l) ->
                 Heap.boards σ' !! l = Heap.boards σ !! l)
    ∧ (exists o, Heap.games σ' !! c = Some o
                 ∧ (Heap.o_board o = board ∧ b ≠ []
                    ∨ Heap.boards σ !! Heap.o_board o = None)).
Proof.
  intros Hb. unfold Heap.__init__, Heap.new_board, Heap.new_object.
  set (zeros := (fun _ => (fun _ => 0) <$> range 0 15) <$> range 0 15).
  set (lst := fresh (dom (Heap.boards σ))).
  assert (Hlst : Heap.boards σ !! lst = None)
    by (apply not_elem_of_dom, is_fresh).
  assert (Hne : board ≠ lst) by (intros ->; by rewrite Hlst in Hb).
  cbn [Heap.boards Heap.games]. rewrite lookup_insert_ne by done. rewrite Hb.
  cbn [mbind option_bind].
  set (c := fresh (dom (Heap.games σ))).
  assert (Hc : Heap.games σ !! c = None) by (apply not_elem_of_dom, is_fresh).
  eexists _, _. split_and!; [done| |done| | |].
  - erewrite heap_view_intro; [|cbn [Heap.games]; apply lookup_insert_eq|].
    + reflexivity.
    + cbn [Heap.boards Heap.o_board]. destruct b as [|r rs].
      * apply lookup_insert_eq.
      * rewrite lookup_insert_ne by done. exact Hb.
  - intros l Hl. cbn [Heap.games]. by rewrite lookup_insert_ne.
  - intros l [x Hx]. cbn [Heap.boards]. rewrite lookup_insert_ne; [done|].
    intros <-. by rewrite Hlst in Hx.
  - eexists. cbn [Heap.games]. split; [apply lookup_insert_eq|].
    cbn [Heap.o_board]. destruct b; [by right|by left].
Qed.

(** X10.  [make_move] on an object of the store does what the method does
    on the state the object stands for: same printed messages or the same
    exception, and the object then stands for the state after the move.  An
    exception leaves the store as it was.  No other object is written, no
    board but the object's own, and the object keeps its board: the stone is
    written in place, so that an object sharing the board sees it. *)
Theorem heap_make_move_in_place
    (σ : Heap.store) (self : Heap.loc) (m : move) (g : GomokuGame) :
  Heap.view σ self = Some g ->
  exists o r σ',
    Heap.games σ !! self = Some o
    ∧ Heap.make_move self m σ = Some (r, σ')
    ∧ match make_move g m with
      | Ok (g', out) => r = Ok out ∧ Heap.view σ' self = Some g'
      | Raise e => r = Raise e ∧ σ' = σ
      end
    ∧ (forall l, l ≠ self -> Heap.games σ' !! l = Heap.games σ !! l)
    ∧ (forall l, l ≠ Heap.o_board o -> Heap.boards σ' !! l = Heap.boards σ !! l)
    ∧ (exists o', Heap.games σ' !! self = Some o'
                  ∧ Heap.o_board o' = Heap.o_board o)
    ∧ (forall other oo go g' out,
         other ≠ self -> Heap.games σ !! other = Some oo ->
         Heap.o_board oo = Heap.o_board o -> Heap.view σ other = Some go ->
         make_move g m = Ok (g', out) ->
         exists go', Heap.view σ' other = Some go' ∧ _board go' = _board g'
                     ∧ _valid_moves go' = _valid_moves go
                     ∧ _moves_so_far go' = _moves_so_far go).
Proof.
  intros Hv.
  destruct (heap_make_move_spec σ self m g Hv)
    as (o & r & σ' & Ho & Hmk & Hsim & Hgames & Hboards & Hkeep).
  exists o, r, σ'. split_and!; [done..|].
  intros other oo go g' out Hother Hoo Hshare Hgo Hmake.
  rewrite Hmake in Hsim. destruct Hsim as [_ Hv'].
  apply heap_view_inv in Hv' as (o' & b' & Ho' & Hb' & ->).
  destruct Hkeep as (o'' & Ho'' & Hsame). rewrite Ho' in Ho''.
  injection Ho'' as <-.
  apply heap_view_inv in Hgo as (oo' & bo & Hoo' & _ & ->).
  rewrite Hoo in Hoo'. injection Hoo' as <-.
  eexists. split.
  { apply heap_view_intro; [by rewrite Hgames|].
    rewrite Hshare, <- Hsame. exact Hb'. }
  done.
Qed.

Lemma heap_make_move_in_place_witness :
  exists σ self,
    Heap.view σ self = Some new_game
    ∧ exists o r σ',
        Heap.games σ !! self = Some o
        ∧ Heap.make_move self (7, 7) σ = Some (r, σ')
        ∧ match make_move new_game (7, 7) with
          | Ok (g', out) => r = Ok out ∧ Heap.view σ' self = Some g'
          | Raise e => r = Raise e ∧ σ' = σ
          end.
Proof.
  destruct (Heap.__init__ None true 0 15 15 Heap.empty) as [ [self σ]|] eqn:Hinit;
    [|by vm_compute in Hinit].
  assert (Hv : Heap.view σ self = Some new_game).
  { vm_compute in Hinit. injection Hinit as <- <-. vm_compute. reflexivity. }
  exists σ, self. split; [exact Hv|].
  destruct (heap_make_move_in_place σ self (7, 7) new_game Hv)
    as (o & r & σ' & Ho & Hmk & Hsim & _).
  by exists o, r, σ'.
Defined.

(** X11.  [copy_and_make_move] on an object of the store returns what the
    method returns on the state the object stands for: [None] for a move
    that is not valid, with the store as it was; else a new object that
    stands for the method's copy.  Every object and every board that was in
    the store is left as it was, the receiver included: the copy writes only
    to boards it has built. *)
Theorem heap_copy_and_make_move_frame
    (σ : Heap.store) (self : Heap.loc) (m : move) (g : GomokuGame) :
  Heap.view σ self = Some g ->
  exists r σ',
    Heap.copy_and_make_move self m σ = Some (r, σ')
    ∧ match copy_and_make_move g m with
      | Ok (Some c) =>
          exists lc oc, r = Ok (Some lc) ∧ Heap.view σ' lc = Some c
                        ∧ Heap.games σ !! lc = None
                        ∧ Heap.games σ' !! lc = Some oc
                        ∧ Heap.boards σ !! Heap.o_board oc = None
      | Ok None => r = Ok None ∧ σ' = σ
      | Raise e => r = Raise e
      end
    ∧ (forall l, is_Some (Heap.games σ !! l) ->
                 Heap.games σ' !! l = Heap.games σ !! l)
    ∧ (forall l, is_Some (Heap.boards σ !! l) ->
                 Heap.boards σ' !! l = Heap.boards σ !! l)
    ∧ (forall l g0, Heap.view σ l = Some g0 -> Heap.view σ' l = Some g0).
Proof.
  intros Hv. pose proof Hv as (o & b & Ho & Hb & ->)%heap_view_inv.
  assert (Hframe : forall σ' : Heap.store,
    (forall l, is_Some (Heap.games σ !! l) ->
               Heap.games σ' !! l = Heap.games σ !! l) ->
    (forall l, is_Some (Heap.boards σ !! l) ->
               Heap.boards σ' !! l = Heap.boards σ !! l) ->
    forall l g0, Heap.view σ l = Some g0 -> Heap.view σ' l = Some g0).
  { intros σ' Hg Hbs l g0 (o0 & b0 & Ho0 & Hb0 & ->)%heap_view_inv.
    apply heap_view_intro; [by rewrite Hg|by rewrite Hbs]. }
  unfold Heap.copy_and_make_move, copy_and_make_move. rewrite Ho.
  cbn [mbind option_bind _valid_moves]. case_bool_decide as Hin.
  { eexists _, _. split_and!; done. }
  unfold Heap.deepcopy, Heap.new_board. rewrite Hb. cbn [mbind option_bind].
  set (lb := fresh (dom (Heap.boards σ))).
  assert (Hlb : Heap.boards σ !! lb = None) by (apply not_elem_of_dom, is_fresh).
  set (σ1 := {| Heap.boards := <[lb:=b]> (Heap.boards σ);
                Heap.games := Heap.games σ |}).
  destruct (heap_init_spec σ1 lb b (Heap.o_is_white_active o) (Heap.o_move_count o))
    as (c & σ2 & -> & Hvc & Hcfresh & Hg2 & Hb2 & oc & Hoc & Hocb).
  { apply lookup_insert_eq. }
  cbn [mbind option_bind _board _is_white_active _move_count].
  unfold deepcopy.
  destruct (heap_make_move_spec σ2 c m _ Hvc)
    as (oc' & r & σ3 & Hoc' & -> & Hsim & Hg3 & Hb3 & oc3 & Hoc3 & Hkeep).
  rewrite Hoc in Hoc'. injection Hoc' as <-.
  cbn [mbind option_bind].
  assert (Hocfresh : Heap.boards σ !! Heap.o_board oc = None).
  { destruct Hocb as [ [-> _]|Hnone]; [done|].
    destruct (decide (Heap.o_board oc = lb)) as [->|Hne]; [done|].
    subst σ1. cbn [Heap.boards] in Hnone. by rewrite lookup_insert_ne in Hnone. }
  assert (Hgames : forall l, is_Some (Heap.games σ !! l) ->
                             Heap.games σ3 !! l = Heap.games σ !! l).
  { intros l [x Hx].
    assert (l ≠ c) by (intros ->; subst σ1; cbn [Heap.games] in Hcfresh; congruence).
    rewrite Hg3, Hg2 by done. done. }
  assert (Hboards : forall l, is_Some (Heap.boards σ !! l) ->
                              Heap.boards σ3 !! l = Heap.boards σ !! l).
  { intros l [x Hx].
    assert (l ≠ Heap.o_board oc) by (intros ->; congruence).
    assert (l ≠ lb) by (intros ->; congruence).
    rewrite Hb3 by done. rewrite Hb2.
    - subst σ1. cbn [Heap.boards]. by rewrite lookup_insert_ne.
    - subst σ1. cbn [Heap.boards]. rewrite lookup_insert_ne by done. by eexists. }
  eexists _, _. split_and!; [done| |done|done|by apply Hframe].
  destruct (make_move _ m) as [ [g' out]|e]; cbn [mbind result_bind].
  - destruct Hsim as [-> Hv3]. exists c, oc3. split_and!; [done|done| |done|].
    + subst σ1. by cbn [Heap.games] in Hcfresh.
    + by rewrite Hkeep.
  - by destruct Hsim as [-> _].
Qed.

Lemma heap_copy_and_make_move_frame_witness :
  exists σ self,
    Heap.view σ self = Some new_game
    ∧ exists r σ',
        Heap.copy_and_make_move self (7, 7) σ = Some (r, σ')
        ∧ Heap.view σ' self = Some new_game.
Proof.
  destruct (Heap.__init__ None true 0 15 15 Heap.empty) as [ [self σ]|] eqn:Hinit;
    [|by vm_compute in Hinit].
  assert (Hv : Heap.view σ self = Some new_game).
  { vm_compute in Hinit. injection Hinit as <- <-. vm_compute. reflexivity. }
  exists σ, self. split; [exact Hv|].
  destruct (heap_copy_and_make_move_frame σ self (7, 7) new_game Hv)
    as (r & σ' & Hcopy & _ & _ & _ & Hframe).
  exists r, σ'. split; [exact Hcopy|]. by apply Hframe.
Defined.

(** ** What the search sees in a copy *)

(** X12.  For a valid move of a well-formed state the copy made by
    [copy_and_make_move] and the state after [make_move] have the same grid,
    colour to move, move count and last move, hence the same evaluation and
    the same winner.  They differ in what the constructor resets: the copy's
    history is the one move, and its valid moves are all cells but that
    move. *)
Theorem copy_and_make_move_same_position (g : GomokuGame) (m : move) :
  wf g -> m ∈ _valid_moves g ->
  exists c g',
    copy_and_make_move g m = Ok (Some c) ∧ make_move g m = Ok (g', [])
    ∧ _board c = _board g'
    ∧ _is_white_active c = _is_white_active g'
    ∧ _move_count c = _move_count g'
    ∧ last_move c = Some m ∧ last_move g' = Some m
    ∧ evaluate_game c = evaluate_game g'
    ∧ get_winner c = get_winner g'
    ∧ _moves_so_far c = [m]
    ∧ (forall m', m' ∈ _valid_moves c <-> in_range m' ∧ m' ≠ m).
Proof.
  intros [Hrows Hcols Hvalid Hlast] Hin.
  assert (Hr : in_range m) by (rewrite Forall_forall in Hvalid; auto).
  destruct (make_move_valid g m) as (b' & Hset & Hb' & Hmake); [by split|done..|].
  unfold copy_and_make_move, deepcopy.
  rewrite bool_decide_eq_false_2 by (by intros H; apply H).
  set (c := __init__ _ _ _ _ _).
  assert (Hc : _board c = _board g).
  { unfold c, __init__. cbn [_board]. destruct (_board g); [done|done]. }
  destruct (make_move_valid c m) as (b'' & Hset' & _ & ->).
  { rewrite Hc. by split. }
  { done. }
  { by apply new_game_valid_moves. }
  cbn [mbind result_bind].
  rewrite Hc in Hset'.
  change (_is_white_active c) with (_is_white_active g) in *.
  rewrite Hset in Hset'. injection Hset' as <-.
  eexists _, _. split; [done|]. split; [exact Hmake|].
  cbn [_board _is_white_active _move_count last_move _moves_so_far _valid_moves].
  do 5 (split; [done|]). split; [|split; [|split; [done|] ] ].
  - unfold evaluate_game, generate_line. reflexivity.
  - unfold get_winner.
    cbn [_board _is_white_active _move_count last_move].
    change (_move_count c) with (_move_count g).
    destruct m as [y x].
    destruct (five_in_a_row_spec
                {| _board := b';
                   _is_white_active := negb (_is_white_active g);
                   _move_count := _move_count g + 1;
                   last_move := Some (y, x);
                   _moves_so_far := _moves_so_far c ++ [(y, x)];
                   _valid_moves := py_remove (y, x) (_valid_moves c);
                   _width := _width c;
                   _height := _height c |} y x (negb (_is_white_active g)))
      as (-> & _); [done..|].
    destruct (five_in_a_row_spec
                {| _board := b';
                   _is_white_active := negb (_is_white_active g);
                   _move_count := _move_count g + 1;
                   last_move := Some (y, x);
                   _moves_so_far := _moves_so_far g ++ [(y, x)];
                   _valid_moves := py_remove (y, x) (_valid_moves g);
                   _width := _width g;
                   _height := _height g |} y x (negb (_is_white_active g)))
      as (-> & _); [done..|].
    reflexivity.
  - intros m'.
    destruct (py_remove_NoDup m (_valid_moves new_game)
                (live_valid_nodup _ new_game_live_inv)) as [_ Hmem].
    change (_valid_moves c) with (_valid_moves new_game).
    by rewrite Hmem, new_game_valid_moves.
Qed.

Lemma copy_and_make_move_same_position_witness :
  wf centre_game ∧ (7, 8) ∈ _valid_moves centre_game
  ∧ exists c g',
    copy_and_make_move centre_game (7, 8) = Ok (Some c)
    ∧ make_move centre_game (7, 8) = Ok (g', [])
    ∧ evaluate_game c = evaluate_game g'
    ∧ get_winner c = get_winner g'
    ∧ _moves_so_far c = [(7, 8)]
    ∧ _moves_so_far g' = [(7, 7); (7, 8)].
Proof.
  assert (Hin : (7, 8) ∈ _valid_moves centre_game).
  { apply (bool_decide_unpack _). vm_compute. exact I. }
  split; [exact centre_game_wf|]. split; [exact Hin|].
  destruct (copy_and_make_move_same_position centre_game (7, 8) centre_game_wf Hin)
    as (c & g' & Hc & Hg & _ & _ & _ & _ & _ & Hev & Hw & Hh & _).
  exists c, g'. split_and!; [done..|].
  vm_compute in Hg. by injection Hg as <-.
Defined.

(** ** The line evaluator on short and stone-free lines *)

Lemma sumZ_nonneg (l : list Z) : Forall (fun z => 0 <= z) l -> 0 <= sumZ l.
Proof. induction 1; cbn [sumZ foldr] in *; [done|]. unfold sumZ in *. lia. Qed.

Lemma sumZ_zero (l : list Z) : Forall (fun z => z = 0) l -> sumZ l = 0.
Proof. induction 1; cbn [sumZ foldr] in *; [done|]. unfold sumZ in *. lia. Qed.

Lemma pattern_shapes :
  Forall (fun entry : string * list Z =>
            0 <= default 0 (_CHESS_PATTERN_SCORE !! entry.1)
            ∧ 2 ∈ entry.2 ∧ (4 <= length entry.2)%nat)
         _CHESS_PATTERN_BLACK.
Proof. apply (bool_decide_unpack _). vm_compute. exact I. Qed.

Lemma occurs_elem (a b : list Z) (z : Z) : occurs a b -> z ∈ a -> z ∈ b.
Proof. intros (pre & post & ->) Hz. set_solver. Qed.

Lemma occurs_length (a b : list Z) : occurs a b -> (length a <= length b)%nat.
Proof. intros (pre & post & ->). rewrite !length_app. lia. Qed.

(** X13.  [_evaluate_line] never raises and never returns a negative
    score; a line without a Black stone, and a line of fewer than four
    cells, scores 0. *)
Theorem evaluate_line_bounds (line : list Z) :
  exists s,
    _evaluate_line line = Ok s
    ∧ 0 <= s
    ∧ (2 ∉ line -> s = 0)
    ∧ ((length line < 4)%nat -> s = 0).
Proof.
  rewrite _evaluate_line_sum. eexists. split; [done|].
  assert (Hcontrib : forall entry : string * list Z,
            entry ∈ _CHESS_PATTERN_BLACK ->
            0 <= contribution entry line
            ∧ (contribution entry line ≠ 0 ->
               2 ∈ line ∧ (4 <= length line)%nat)).
  { intros entry Hentry.
    pose proof (proj1 (Forall_forall _ _) pattern_shapes entry Hentry)
      as (Hpos & Htwo & Hlen).
    unfold contribution.
    destruct (_check_contain entry.2 line || _check_contain (reverse entry.2) line)
      eqn:Hc; [|split; [lia|done] ].
    split; [done|]. intros _.
    apply orb_true_iff in Hc as [Hc|Hc]; apply _check_contain_occurs in Hc.
    - split; [by apply (occurs_elem _ _ _ Hc)|].
      apply occurs_length in Hc. lia.
    - split; [apply (occurs_elem _ _ _ Hc); by apply elem_of_reverse|].
      apply occurs_length in Hc. rewrite length_reverse in Hc. lia. }
  split_and!.
  - apply sumZ_nonneg, Forall_fmap, Forall_forall. intros entry Hentry.
    by apply Hcontrib.
  - intros Hno. apply sumZ_zero, Forall_fmap, Forall_forall. intros entry Hentry.
    cbn beta. destruct (decide (contribution entry line = 0)) as [|Hne]; [done|].
    by apply (Hcontrib entry Hentry) in Hne as [? _].
  - intros Hshort. apply sumZ_zero, Forall_fmap, Forall_forall. intros entry Hentry.
    cbn beta. destruct (decide (contribution entry line = 0)) as [|Hne]; [done|].
    apply (Hcontrib entry Hentry) in Hne as [_ ?]. lia.
Qed.

(** ** Clicks and squares *)

Lemma grid_div (a p : Z) : a * 70 <= p < a * 70 + 70 -> p `div` _GRID_SIZE = a.
Proof.
  intros Hp. unfold _GRID_SIZE. symmetry.
  apply (Z.div_unique p 70 a (p - a * 70)); lia.
Qed.

(** X14.  A left click anywhere inside the square that [draw_stone] uses
    for the move [(a, b)] calls [make_move] with that move; a click with
    another button changes nothing and prints nothing. *)
Theorem handle_mouse_click_plays_clicked_square
    (g : GomokuGame) (a b x y w h : Z) (ev : event) :
  _each_unit_grid a b = [x; y; w; h] ->
  x <= (pos ev).1 < x + w -> y <= (pos ev).2 < y + h ->
  (button ev = 1 -> handle_mouse_click g ev = make_move g (a, b))
  ∧ (button ev ≠ 1 -> handle_mouse_click g ev = Ok (g, []))
  ∧ handle_mouse_click g (mkEvent (x + w `div` 2, y + h `div` 2) 1)
    = make_move g (a, b).
Proof.
  unfold _each_unit_grid. intros [= <- <- <- <-] Hx Hy.
  unfold handle_mouse_click. split_and!.
  - intros ->. rewrite bool_decide_eq_true_2 by done.
    unfold _GRID_SIZE in Hx, Hy. by rewrite (grid_div a), (grid_div b).
  - intros Hb. by rewrite bool_decide_eq_false_2.
  - cbn [pos button fst snd]. rewrite bool_decide_eq_true_2 by done.
    rewrite (grid_div a), (grid_div b);
      [done|unfold _GRID_SIZE; change (70 `div` 2) with 35; lia..].
Qed.

Lemma handle_mouse_click_plays_clicked_square_witness :
  handle_mouse_click new_game (mkEvent (500, 530) 1) = make_move new_game (7, 7)
  ∧ handle_mouse_click new_game (mkEvent (525, 525) 1) = make_move new_game (7, 7).
Proof.
  destruct (handle_mouse_click_plays_clicked_square
              new_game 7 7 490 490 70 70 (mkEvent (500, 530) 1))
    as (Hleft & _ & Hcentre).
  - reflexivity.
  - cbn [pos fst]. lia.
  - cbn [pos snd]. lia.
  - split; [by apply Hleft|exact Hcentre].
Defined.

(** ** The console board *)

Lemma mapM_r_fmap {A B : Type} (f : A -> result B) (h : A -> B) (l : list A) :
  Forall (fun x => f x = Ok (h x)) l -> mapM_r f l = Ok (h <$> l).
Proof.
  induction 1 as [|x l Hx _ IH]; [done|].
  cbn [mapM_r]. rewrite Hx, IH. done.
Qed.

Lemma range_lookup (n i : nat) :
  (i < n)%nat -> range 0 (Z.of_nat n) !! i = Some (Z.of_nat i).
Proof.
  intros Hi. unfold range. apply lookup_seqZ. lia.
Qed.

Lemma join_row (syms : list Ascii.ascii) :
  length syms = 15%nat ->
  String.length (join " -- " ((fun c => String c EmptyString) <$> syms)) = 71%nat
  ∧ forall j c, syms !! j = Some c ->
      String.get (5 * j) (join " -- " ((fun c => String c EmptyString) <$> syms))
      = Some c.
Proof.
  intros Hlen.
  do 15 (destruct syms as [|? syms]; [done|]). destruct syms; [|done].
  split; [reflexivity|]. intros j c Hj.
  do 15 (destruct j as [|j]; [cbn in Hj; injection Hj as ->; reflexivity|]).
  done.
Qed.

(** X15.  On a 15 x 15 grid [printing_board] never raises.  It prints 15
    lines of 71 characters, and column [5 * j] of line [i] shows cell
    [(i, j)]: [@] for 1, [#] for 2 and a blank for anything else. *)
Theorem printing_board_shows_every_cell (g : GomokuGame) :
  board_ok (_board g) ->
  exists lines,
    printing_board g = Ok lines
    ∧ length lines = 15%nat
    ∧ forall i j v, cell (_board g) i j = Some v ->
        exists line,
          lines !! Z.to_nat i = Some line
          ∧ String.length line = 71%nat
          ∧ String.get (5 * Z.to_nat j) line = Some (symbol v).
Proof.
  intros Hb. unfold printing_board.
  set (sym := fun i j => symbol (default 0 (cell (_board g) i j))).
  set (h := fun i j => String (sym i j) EmptyString).
  rewrite (mapM_r_fmap _ (fun i => h i <$> range 0 15)).
  2:{ apply Forall_forall. intros i Hi%range_elem.
      apply mapM_r_fmap, Forall_forall. intros j Hj%range_elem.
      destruct (board_at_in (_board g) i j Hb) as (v & -> & Hc); [lia..|].
      cbn [mbind result_bind]. unfold h, sym, symbol. rewrite Hc. cbn [default].
      by repeat case_bool_decide. }
  cbn [mbind result_bind].
  rewrite (mapM_r_fmap _ (fun i => join " -- " (h i <$> range 0 15))).
  2:{ apply Forall_forall. intros i Hi%range_elem.
      destruct (py_getitem_in ((fun i => h i <$> range 0 15) <$> range 0 15) i)
        as (row & -> & Hrow).
      { rewrite length_fmap. unfold range. rewrite length_seqZ. lia. }
      cbn [mbind result_bind].
      rewrite list_lookup_fmap, (range_lookup 15) in Hrow by lia.
      cbn [fmap option_fmap option_map] in Hrow. injection Hrow as <-.
      by rewrite Z2Nat.id by lia. }
  eexists. split; [done|]. split.
  { rewrite length_fmap. unfold range. by rewrite length_seqZ. }
  intros i j v Hc.
  assert (Hij : 0 <= i <= 14 ∧ 0 <= j <= 14).
  { unfold cell in Hc. by case_bool_decide. }
  rewrite list_lookup_fmap, (range_lookup 15) by lia.
  cbn [fmap option_fmap option_map]. eexists. split; [done|].
  rewrite Z2Nat.id by lia.
  assert (Hrow : h i <$> range 0 15
                 = (fun c => String c EmptyString) <$> (sym i <$> range 0 15)).
  { by rewrite <- list_fmap_compose. }
  rewrite Hrow.
  destruct (join_row (sym i <$> range 0 15)) as [Hlen Hget].
  { rewrite length_fmap. unfold range. by rewrite length_seqZ. }
  split; [done|]. apply Hget.
  rewrite list_lookup_fmap, (range_lookup 15) by lia.
  cbn [fmap option_fmap option_map]. rewrite Z2Nat.id by lia.
  unfold sym. by rewrite Hc.
Qed.

Lemma printing_board_shows_every_cell_witness :
  board_ok (_board centre_game)
  ∧ exists lines,
    printing_board centre_game = Ok lines
    ∧ length lines = 15%nat
    ∧ exists line,
        lines !! 7%nat = Some line
        ∧ String.length line = 71%nat
        ∧ String.get 35 line = Some (Ascii.ascii_of_nat 64).
Proof.
  split; [exact centre_game_board_ok|].
  destruct (printing_board_shows_every_cell centre_game centre_game_board_ok)
    as (lines & Hprint & Hlen & Hcells).
  exists lines. split_and!; [done..|].
  destruct (Hcells 7 7 1) as (line & Hline & Hl & Hget); [vm_compute; reflexivity|].
  exists line. split_and!; [exact Hline|exact Hl|exact Hget].
Defined.

(** ** The pruning search *)

Lemma make_move_and_prune_O (self : AIPlayer.t) (g : GomokuGame) (alpha beta : num) :
  AIPlayer.make_move_and_prune self g 0 alpha beta
  = match last_move g with
    | None => Ok (Fin 100, AIPlayer.set_next_move (AIPlayer.set_next_move self None)
                                                 (Some (7, 7)))
    | Some _ => _ ← evaluate_game g; score ← evaluate_game g;
                Ok (Fin score, AIPlayer.set_next_move self None)
    end.
Proof. reflexivity. Qed.

Lemma make_move_and_prune_S (self : AIPlayer.t) (g : GomokuGame) (d' : nat)
    (alpha beta : num) :
  AIPlayer.make_move_and_prune self g (S d') alpha beta
  = match last_move g with
    | None => Ok (Fin 100, AIPlayer.set_next_move (AIPlayer.set_next_move self None)
                                                 (Some (7, 7)))
    | Some _ =>
        score ← evaluate_game g;
        possible_moves ← valid_moves_with_neighbour g 1;
        if bool_decide (length possible_moves = 0%nat)
        then Ok (Fin score, AIPlayer.set_next_move self None)
        else
          '(self, alpha, next_move) ←
            foldM_break (prune_step g d' beta)
                        (AIPlayer.set_next_move self None, alpha, None)
                        possible_moves;
          if bool_decide (Some (Z.of_nat (S d')) = AIPlayer._depth self)
          then match next_move with
               | None => Raise AssertionError
               | Some _ => Ok (alpha, AIPlayer.set_next_move self next_move)
               end
          else Ok (alpha, self)
    end.
Proof. reflexivity. Qed.

Lemma prune_step_eq (g : GomokuGame) (d' : nat) (beta : num) (self : AIPlayer.t)
    (alpha : num) (next_move : option move) (move : move) :
  prune_step g d' beta (self, alpha, next_move) move
  = (new_game ← copy_and_make_move g move;
     new_game ← AIPlayer.the_game new_game;
     '(r, self) ← AIPlayer.make_move_and_prune self new_game d'
                     (num_neg beta) (num_neg alpha);
     if num_gt (num_neg r) alpha
     then Ok ((self, num_neg r, Some move), num_ge (num_neg r) beta)
     else Ok ((self, alpha, next_move), false)).
Proof. reflexivity. Qed.

Lemma foldM_break_cons {A B : Type} (body : B -> A -> result (B * bool))
    (acc : B) (x : A) (l : list A) :
  foldM_break body acc (x :: l)
  = ('(acc', broke) ← body acc x;
     if broke : bool then Ok acc' else foldM_break body acc' l).
Proof. reflexivity. Qed.

(** The loop over the candidates, given that the calls one level down
    return an integer and leave the player's depth alone. *)
Lemma prune_loop (g : GomokuGame) (d' : nat) (beta : num) :
  wf g -> beta ≠ NegInf ->
  (forall (self : AIPlayer.t) (c : GomokuGame) (a b : num),
     wf c -> a ≠ PosInf -> b ≠ NegInf ->
     (forall k, (k <= d')%nat -> AIPlayer._depth self ≠ Some (Z.of_nat k)) ->
     exists z self',
       AIPlayer.make_move_and_prune self c d' a b = Ok (Fin z, self')
       ∧ AIPlayer._depth self' = AIPlayer._depth self) ->
  forall (l : list move), Forall (fun m => m ∈ _valid_moves g) l ->
  forall (self : AIPlayer.t) (alpha : num) (nm : option move),
    alpha ≠ PosInf ->
    (forall k, (k <= d')%nat -> AIPlayer._depth self ≠ Some (Z.of_nat k)) ->
    exists self' alpha' nm',
      foldM_break (prune_step g d' beta) (self, alpha, nm) l
      = Ok (self', alpha', nm')
      ∧ AIPlayer._depth self' = AIPlayer._depth self
      ∧ alpha' ≠ PosInf
      ∧ (alpha ≠ NegInf -> alpha' ≠ NegInf)
      ∧ (is_Some nm -> is_Some nm')
      ∧ (forall m, nm' = Some m -> nm = Some m ∨ m ∈ l)
      ∧ (l ≠ [] -> alpha = NegInf -> alpha' ≠ NegInf ∧ is_Some nm').
Proof.
  intros Hwf Hbeta Hcall l. induction 1 as [|m l Hm _ IH]; intros self alpha nm Ha Hd.
  { exists self, alpha, nm. split_and!; try done. by left. }
  rewrite foldM_break_cons, prune_step_eq.
  destruct (copy_and_make_move_valid g m Hwf Hm) as (c & -> & Hc & _). step.
  destruct (Hcall self c (num_neg beta) (num_neg alpha) Hc)
    as (z & self1 & -> & Hd1).
  { by destruct beta. }
  { by destruct alpha. }
  { done. }
  step. cbn [num_neg].
  assert (Hd1' : forall k, (k <= d')%nat ->
                           AIPlayer._depth self1 ≠ Some (Z.of_nat k))
    by (intros k Hk; rewrite Hd1; by apply Hd).
  destruct (num_gt (Fin (- z)) alpha) eqn:Hgt; step.
  - destruct (num_ge (Fin (- z)) beta); step.
    + exists self1, (Fin (- z)), (Some m).
      split_and!; try done.
      intros m' [= <-]. right. by left.
    + destruct (IH self1 (Fin (- z)) (Some m)) as
        (self' & alpha' & nm' & -> & Hd' & Hpos & Hneg & Hsome & Hfrom & _);
        [done|done|].
      exists self', alpha', nm'. split_and!; try done.
      * congruence.
      * intros _. by apply Hneg.
      * intros _. by apply Hsome.
      * intros m' [ [= <-]|?]%Hfrom; right; [by left|by right].
      * intros _ _. split; [by apply Hneg|by apply Hsome].
  - assert (Halpha : alpha ≠ NegInf) by (intros ->; done).
    destruct (IH self1 alpha nm) as
      (self' & alpha' & nm' & -> & Hd' & Hpos & Hneg & Hsome & Hfrom & _);
      [done|done|].
    exists self', alpha', nm'. split_and!; try done.
    + congruence.
    + intros m' [?|?]%Hfrom; [by left|right; by right].
Qed.

Lemma prune_total (d : nat) :
  forall (self : AIPlayer.t) (g : GomokuGame) (alpha beta : num),
    wf g -> alpha ≠ PosInf -> beta ≠ NegInf ->
    (forall k, (k <= d)%nat -> AIPlayer._depth self = Some (Z.of_nat k) ->
               k = d ∧ alpha = NegInf) ->
    exists z self',
      AIPlayer.make_move_and_prune self g d alpha beta = Ok (Fin z, self')
      ∧ AIPlayer._depth self' = AIPlayer._depth self
      ∧ (last_move g = None ->
         z = 100 ∧ AIPlayer._next_move self' = Some (7, 7))
      ∧ (is_Some (last_move g) -> d = 0%nat ->
         evaluate_game g = Ok z ∧ AIPlayer._next_move self' = None)
      ∧ (forall cands,
           is_Some (last_move g) -> d ≠ 0%nat ->
           AIPlayer._depth self = Some (Z.of_nat d) ->
           valid_moves_with_neighbour g 1 = Ok cands -> cands ≠ [] ->
           exists m, AIPlayer._next_move self' = Some m ∧ m ∈ cands).
Proof.
  induction d as [|d' IH]; intros self g alpha beta Hwf Ha Hb Hdepth.
  - rewrite make_move_and_prune_O. destruct (last_move g) as [lm|] eqn:Hlm.
    + destruct (evaluate_game_total g lm) as [s Hs];
        [split; apply Hwf|done|by apply Hwf|].
      rewrite Hs. step. exists s, (AIPlayer.set_next_move self None).
      split_and!; try done.
    + eexists _, _. split_and!; try done; by intros [? ?].
  - rewrite make_move_and_prune_S. destruct (last_move g) as [lm|] eqn:Hlm.
    2:{ eexists _, _. split_and!; try done; by intros [? ?]. }
    destruct (evaluate_game_total g lm) as [s ->];
      [split; apply Hwf|done|by apply Hwf|]. step.
    destruct (valid_moves_with_neighbour_total g 1) as (l & Hl & Hsub);
      [split; apply Hwf|]. rewrite Hl. step.
    case_bool_decide as Hlen.
    { exists s, (AIPlayer.set_next_move self None). split_and!; try done.
      intros cands _ _ _ [= <-] Hne. by destruct l. }
    destruct (prune_loop g d' beta Hwf Hb) with
      (l := l) (self := AIPlayer.set_next_move self None) (alpha := alpha)
      (nm := @None move)
      as (self' & alpha' & nm' & -> & Hd' & Hpos & Hneg & _ & Hfrom & Hfirst).
    { intros self0 c a b Hc Ha0 Hb0 Hd0.
      destruct (IH self0 c a b Hc Ha0 Hb0) as (z & self1 & -> & ? & _).
      - intros k Hk Hdk. by destruct (Hd0 k Hk).
      - by exists z, self1. }
    { apply Forall_forall. intros m Hm. by apply Hsub. }
    { done. }
    { intros k Hk Hdk. cbn [AIPlayer._depth AIPlayer.set_next_move] in Hdk.
      destruct (Hdepth k) as [? _]; [lia|done|lia]. }
    step. cbn [AIPlayer._depth AIPlayer.set_next_move] in Hd'.
    assert (Hlne : l ≠ []) by (by destruct l).
    case_bool_decide as Htop.
    + destruct (Hdepth (S d')) as [_ ->]; [lia|by rewrite <- Hd'|].
      destruct (Hfirst Hlne eq_refl) as [Hfin [m Hnm] ]. rewrite Hnm.
      destruct alpha' as [|z|]; [done| |done].
      exists z, (AIPlayer.set_next_move self' (Some m)).
      split_and!; try done.
      intros cands _ _ _ [= <-] _. exists m. split; [done|].
      by destruct (Hfrom m Hnm).
    + assert (Hfin : alpha' ≠ NegInf).
      { destruct alpha as [|a|]; [by apply Hfirst|by apply Hneg|done]. }
      destruct alpha' as [|z|]; [done| |done].
      exists z, self'. split_and!; try done.
      intros cands _ _ Htop'. exfalso. apply Htop. by rewrite Hd', Htop'.
Qed.

(** X16.  [make_move_and_prune] with its default window, called at the
    depth the player was set to, on a well-formed state: the call returns
    an integer score and never fails its assertion.  On the empty board it
    is 100 with the centre; at depth 0 the evaluation with no move; else,
    when there are candidates, the move it leaves in [_next_move] is one of
    them.  The player's depth is unchanged. *)
Theorem make_move_and_prune_finds_move
    (self : AIPlayer.t) (g : GomokuGame) (d : nat) :
  wf g -> AIPlayer._depth self = Some (Z.of_nat d) ->
  exists z self',
    AIPlayer.make_move_and_prune self g d NegInf PosInf = Ok (Fin z, self')
    ∧ AIPlayer._depth self' = AIPlayer._depth self
    ∧ (last_move g = None ->
       z = 100 ∧ AIPlayer._next_move self' = Some (7, 7))
    ∧ (is_Some (last_move g) -> d = 0%nat ->
       evaluate_game g = Ok z ∧ AIPlayer._next_move self' = None)
    ∧ (forall cands,
         is_Some (last_move g) -> d ≠ 0%nat ->
         valid_moves_with_neighbour g 1 = Ok cands -> cands ≠ [] ->
         exists m, AIPlayer._next_move self' = Some m ∧ m ∈ cands).
Proof.
  intros Hwf Hd.
  destruct (prune_total d self g NegInf PosInf Hwf) as
    (z & self' & Hcall & Hd' & Hnone & Hzero & Hmove); [done|done| |].
  { intros k Hk Hdk. rewrite Hd in Hdk. injection Hdk as Hdk. split; [lia|done]. }
  exists z, self'. split_and!; try done.
  intros cands Hlm Hne Hc Hcne. by apply Hmove.
Qed.

Lemma make_move_and_prune_finds_move_witness :
  wf centre_game
  ∧ AIPlayer._depth (AIPlayer.__init__ centre_game (Some 2)) = Some (Z.of_nat 2)
  ∧ exists z self',
      AIPlayer.make_move_and_prune (AIPlayer.__init__ centre_game (Some 2))
                                   centre_game 2 NegInf PosInf
      = Ok (Fin z, self')
      ∧ exists m, AIPlayer._next_move self' = Some m ∧ in_range m.
Proof.
  split; [exact centre_game_wf|]. split; [reflexivity|].
  destruct (make_move_and_prune_finds_move
              (AIPlayer.__init__ centre_game (Some 2)) centre_game 2
              centre_game_wf eq_refl)
    as (z & self' & Hcall & _ & _ & _ & Hmove).
  exists z, self'. split; [exact Hcall|].
  destruct (valid_moves_with_neighbour_total centre_game 1 centre_game_board_ok)
    as (l & Hl & Hsub).
  destruct (Hmove l) as (m & Hm & Hin); [by eexists|done|done| |].
  - intros ->. vm_compute in Hl. by apply Ok_inj in Hl.
  - exists m. split; [done|].
    pose proof (wf_valid _ centre_game_wf) as Hall.
    apply (proj1 (Forall_forall _ _) Hall). by apply Hsub.
Defined.

(** ** A game built by the constructor on a given board *)

(** X17.  [GomokuGame(board=b, white_active=w, move_count=n)] on a 15 x 15
    grid [b] keeps [b] but has no last move and every cell as a valid move,
    whatever [b] holds.  So [evaluate_game] raises a [TypeError];
    [get_winner] is [None] for [n = 0] and a [TypeError] otherwise; the
    search answers 100 and the centre at every depth; and [make_move]
    accepts every cell of the board, occupied or not, and writes the
    mover's stone there. *)
Theorem constructed_game_has_no_last_move
    (b : list (list Z)) (w : bool) (n : Z) (m : move)
    (self : AIPlayer.t) (d : nat) :
  board_ok b -> in_range m ->
  let g := __init__ (Some b) w n 15 15 in
  _board g = b
  ∧ evaluate_game g = Raise TypeError
  ∧ get_winner g = (if bool_decide (n = 0) then Ok None else Raise TypeError)
  ∧ (exists self', AIPlayer.activate_make_move self g d
                   = Ok ((100, Some (7, 7)), self'))
  ∧ (exists g', make_move g m = Ok (g', [])
                ∧ cell (_board g') m.1 m.2 = Some (if w then 1 else 2)
                ∧ last_move g' = Some m).
Proof.
  intros Hb Hr g.
  assert (Hboard : _board g = b).
  { destruct Hb as [Hlen _]. by destruct b. }
  assert (Hlast : last_move g = None) by reflexivity.
  split_and!.
  - done.
  - unfold evaluate_game. rewrite Hlast, foldM_cons. reflexivity.
  - unfold get_winner. rewrite Hlast.
    change (_move_count g) with n. by case_bool_decide.
  - unfold AIPlayer.activate_make_move.
    destruct d as [|d']; [rewrite make_move_O|rewrite make_move_S];
      rewrite Hlast; step; by eexists.
  - destruct (make_move_valid g m) as (b' & Hset & _ & Hmake).
    { by rewrite Hboard. }
    { done. }
    { by apply new_game_valid_moves. }
    eexists. split; [exact Hmake|]. cbn [_board last_move]. split; [|done].
    rewrite Hboard in Hset.
    rewrite (board_set_cell b b' m.1 m.2 _ Hb (proj1 Hr) (proj2 Hr) Hset).
    by rewrite bool_decide_eq_true_2.
Qed.

Lemma constructed_game_has_no_last_move_witness :
  board_ok (_board centre_game) ∧ in_range (7, 7)
  ∧ cell (_board centre_game) 7 7 = Some 1
  ∧ exists g',
      make_move (__init__ (Some (_board centre_game)) false 1 15 15) (7, 7)
      = Ok (g', [])
      ∧ cell (_board g') 7 7 = Some 2
  ∧ get_winner (__init__ (Some (_board centre_game)) false 1 15 15)
    = Raise TypeError.
Proof.
  split; [exact centre_game_board_ok|]. split; [exact centre_cell_in_range|].
  split; [vm_compute; reflexivity|].
  destruct (constructed_game_has_no_last_move (_board centre_game) false 1 (7, 7)
              player 1 centre_game_board_ok centre_cell_in_range)
    as (_ & _ & Hw & _ & g' & Hmake & Hcell & _).
  exists g'. split; [exact Hmake|]. split; [exact Hcell|exact Hw].
Defined.

(** ** The four lines through a cell *)

Lemma cell_lookup (B : list (list Z)) (i : nat) (row : list Z) (x : Z) :
  B !! i = Some row -> (i <= 14)%nat -> 0 <= x <= 14 ->
  cell B (Z.of_nat i) x = row !! Z.to_nat x.
Proof.
  intros HB Hi Hx. unfold cell. rewrite bool_decide_eq_true_2 by lia.
  rewrite Nat2Z.id, HB. done.
Qed.

Lemma cell_off_board (B : list (list Z)) (y x : Z) :
  ¬ (0 <= x <= 14) -> cell B y x = None.
Proof.
  intros Hx. unfold cell. rewrite bool_decide_eq_false_2; [done|]. intros [_ ?]. done.
Qed.

Lemma column_by_rows (x : Z) (B b : list (list Z)) :
  0 <= x <= 14 ->
  forall k : nat,
    (forall i row, b !! i = Some row ->
                   B !! (k + i)%nat = Some row ∧ length row = 15%nat) ->
    (k + length b <= 15)%nat ->
    mapM_r (fun lst => py_getitem lst x) b
    = Ok (omap (fun i => cell B i x) (seqZ (Z.of_nat k) (Z.of_nat (length b)))).
Proof.
  intros Hx. induction b as [|row b IH]; intros k Hrows Hk; [done|].
  cbn [mapM_r length]. rewrite Nat2Z.inj_succ, seqZ_cons by lia.
  destruct (Hrows 0%nat row eq_refl) as [HB Hlen]. rewrite Nat.add_0_r in HB.
  destruct (py_getitem_in row x) as (v & -> & Hv); [lia|].
  cbn [mbind result_bind omap list_omap].
  rewrite (cell_lookup B k row x HB) by (cbn [length] in Hk; lia). rewrite Hv.
  replace (Z.succ (Z.of_nat k)) with (Z.of_nat (S k)) by lia.
  replace (Z.pred (Z.succ (Z.of_nat (length b)))) with (Z.of_nat (length b)) by lia.
  rewrite (IH (S k)); [done| |cbn [length] in Hk; lia].
  intros i r Hi. replace (S k + i)%nat with (k + S i)%nat by lia.
  by apply Hrows.
Qed.

Lemma diagonal_by_rows (col : Z -> Z) (B b : list (list Z)) :
  forall k : nat,
    (forall i row, b !! i = Some row ->
                   B !! (k + i)%nat = Some row ∧ length row = 15%nat
                   ∧ Forall (fun v => v ≠ -1) row) ->
    (k + length b <= 15)%nat ->
    exists xs,
      mapM_r (fun '(i, lst) =>
                if bool_decide (col i >= 0) && bool_decide (col i <= 14)
                then py_getitem lst (col i)
                else Ok (-1))
             (imap (fun i row => (Z.of_nat (k + i), row)) b)
      = Ok xs
      ∧ filter (fun a => a ≠ -1) xs
        = omap (fun i => cell B i (col i))
               (seqZ (Z.of_nat k) (Z.of_nat (length b))).
Proof.
  induction b as [|row b IH]; intros k Hrows Hk; [by exists []|].
  destruct (Hrows 0%nat row eq_refl) as (HB & Hlen & Hrow).
  rewrite Nat.add_0_r in HB.
  destruct (IH (S k)) as (xs & Hxs & Hfilter).
  { intros i r Hi. replace (S k + i)%nat with (k + S i)%nat by lia.
    by apply Hrows. }
  { cbn [length] in Hk. lia. }
  rewrite imap_cons. cbn [mapM_r length]. rewrite Nat.add_0_r.
  rewrite (imap_ext _ (fun i row => (Z.of_nat (S k + i), row)))
    by (intros i r _; unfold compose; f_equal; lia).
  rewrite Hxs. rewrite Nat2Z.inj_succ, seqZ_cons by lia.
  replace (Z.succ (Z.of_nat k)) with (Z.of_nat (S k)) by lia.
  replace (Z.pred (Z.succ (Z.of_nat (length b)))) with (Z.of_nat (length b)) by lia.
  cbn [omap list_omap]. rewrite <- Hfilter.
  destruct (decide (0 <= col (Z.of_nat k) <= 14)) as [Hc|Hc].
  - rewrite !bool_decide_eq_true_2 by lia. cbn [andb].
    destruct (py_getitem_in row (col (Z.of_nat k))) as (v & -> & Hv); [lia|].
    cbn [mbind result_bind]. eexists. split; [done|].
    rewrite (cell_lookup B k row _ HB) by (cbn [length] in Hk; lia). rewrite Hv.
    rewrite filter_cons_True; [done|].
    by apply (Forall_lookup_1 _ _ _ _ Hrow Hv).
  - rewrite (cell_off_board B _ _ Hc).
    assert (Hb : bool_decide (col (Z.of_nat k) >= 0)
                 && bool_decide (col (Z.of_nat k) <= 14) = false).
    { apply andb_false_iff. rewrite !bool_decide_eq_false. lia. }
    rewrite Hb. cbn [mbind result_bind]. eexists. split; [done|].
    by rewrite filter_cons_False by (intros H; by apply H).
Qed.

(** X18.  On a 15 x 15 grid without the marker value -1, [getline] returns
    the cells of the row, the column and the two diagonals through
    [center], from the top row down: direction 0 is row [y]; direction 1 is
    column [x]; direction 2 the diagonal of the cells [(i, x + i - y)];
    direction 3 that of the cells [(i, y - i + x)]; cells off the board are
    left out.  Any other direction gives [None]. *)
Theorem getline_is_line_through_center (b : list (list Z)) (y x : Z) :
  board_ok b -> in_range (y, x) ->
  Forall (Forall (fun v => v ≠ -1)) b ->
  (exists row, b !! Z.to_nat y = Some row ∧ getline (y, x) 0 b = Ok (Some row))
  ∧ getline (y, x) 1 b = Ok (Some (omap (fun i => cell b i x) (range 0 15)))
  ∧ getline (y, x) 2 b
    = Ok (Some (omap (fun i => cell b i (x + i - y)) (range 0 15)))
  ∧ getline (y, x) 3 b
    = Ok (Some (omap (fun i => cell b i (y - i + x)) (range 0 15)))
  ∧ (forall direction, direction ∉ [0; 1; 2; 3] ->
       getline (y, x) direction b = Ok None).
Proof.
  intros Hb [Hy Hx] Hmark. cbn [fst snd] in Hy, Hx.
  pose proof Hb as [Hlen Hcols].
  assert (Hrows : forall i row, b !! i = Some row ->
            b !! (0 + i)%nat = Some row ∧ length row = 15%nat
            ∧ Forall (fun v => v ≠ -1) row).
  { intros i row Hi. split_and!; [done| |].
    - by apply (Forall_lookup_1 _ _ _ _ Hcols Hi).
    - by apply (Forall_lookup_1 _ _ _ _ Hmark Hi). }
  assert (Hrange : range 0 15 = seqZ (Z.of_nat 0) (Z.of_nat (length b))).
  { by rewrite Hlen. }
  unfold getline. cbn [fst snd]. split_and!.
  - rewrite bool_decide_eq_true_2 by done.
    destruct (board_ok_row b y Hb Hy) as (row & -> & Hrow & _).
    by exists row.
  - rewrite bool_decide_eq_false_2, bool_decide_eq_true_2 by done.
    rewrite (column_by_rows x b b Hx 0), Hrange; [done| |lia].
    intros i row Hi. by destruct (Hrows i row Hi) as (? & ? & _).
  - rewrite !bool_decide_eq_false_2, bool_decide_eq_true_2 by done.
    destruct (diagonal_by_rows (fun i => x + i - y) b b 0 Hrows) as (xs & Hxs & Hf);
      [lia|].
    cbn beta in Hxs. unfold enumerate.
    rewrite (imap_ext _ (fun i row => (Z.of_nat (0 + i), row))) by done.
    rewrite Hxs. cbn [mbind result_bind]. by rewrite Hf, Hrange.
  - rewrite !bool_decide_eq_false_2, bool_decide_eq_true_2 by done.
    destruct (diagonal_by_rows (fun i => y - i + x) b b 0 Hrows) as (xs & Hxs & Hf);
      [lia|].
    cbn beta in Hxs. unfold enumerate.
    rewrite (imap_ext _ (fun i row => (Z.of_nat (0 + i), row))) by done.
    rewrite Hxs. cbn [mbind result_bind]. by rewrite Hf, Hrange.
  - intros direction Hd.
    rewrite !bool_decide_eq_false_2; [done|..]; intros ->; apply Hd;
      rewrite !elem_of_cons; auto.
Qed.

Lemma getline_is_line_through_center_witness :
  board_ok (_board centre_game) ∧ in_range (7, 7)
  ∧ getline (7, 7) 2 (_board centre_game)
    = Ok (Some (omap (fun i => cell (_board centre_game) i (7 + i - 7)) (range 0 15)))
  ∧ getline (7, 7) 3 (_board centre_game)
    = Ok (Some (omap (fun i => cell (_board centre_game) i (7 - i + 7)) (range 0 15))).
Proof.
  split; [exact centre_game_board_ok|]. split; [exact centre_cell_in_range|].
  destruct (getline_is_line_through_center (_board centre_game) 7 7
              centre_game_board_ok centre_cell_in_range)
    as (_ & _ & H2 & H3 & _).
  - apply (bool_decide_unpack _). vm_compute. exact I.
  - split; [exact H2|exact H3].
Defined.
